(** * Linux usbfs backend of the MTP transport: [mtp/backend/linux/usb/Device.cpp]

    A shallow embedding of the translation unit and the properties of its
    bulk, control and submit/reap paths.

    Conventions.
    - C++ integers are [Z]; [int] division is [Z.quot] (truncation).
    - [ByteArray] (a [std::vector<u8>]) is [list byte].
    - A [shared_ptr<Urb>] and the address of the [KernelUrb] member of the
      object it points to determine each other (the member sits at a fixed
      offset), so both are represented by one number, the identity of the
      [Urb] object.
    - Every system call takes its answer from an explicit environment
      argument and leaves an [Event] in the trace of the state, so the
      functions stay executable and the order of effects is observable. *)

From Stdlib Require Import ZArith List String Lia.
From Stdlib Require Import Strings.Byte.
From stdpp Require Import base option list gmap.

Local Open Scope Z_scope.

(** ** Constants of the kernel interface *)

(** [errno] values tested by the code (Linux [errno.h]). *)
Definition EAGAIN : Z := 11.
Definition EBUSY : Z := 16.
Definition ENODEV : Z := 19.

(** Values of [linux/usbdevice_fs.h], the kernel's usbfs interface; the
    header is included by the file and fixed by the kernel ABI. *)
Definition USBDEVFS_URB_TYPE_ISO : Z := 0.
Definition USBDEVFS_URB_TYPE_INTERRUPT : Z := 1.
Definition USBDEVFS_URB_TYPE_CONTROL : Z := 2.
Definition USBDEVFS_URB_TYPE_BULK : Z := 3.

Definition USBDEVFS_URB_BULK_CONTINUATION : Z := 0x04.
Definition USBDEVFS_URB_ZERO_PACKET : Z := 0x40.

Definition USBDEVFS_CAP_ZERO_PACKET : Z := 0x01.
Definition USBDEVFS_CAP_BULK_CONTINUATION : Z := 0x02.

(** ** Exceptions *)

Inductive exn : Type :=
| DeviceBusyException
| DeviceNotFoundException
| TimeoutException (what : string)
| posix_Exception (what : string) (err : Z)
| runtime_error (what : string).

(** Modelled from the spec: the declarations of the exception classes
    ([Exception.h], [mtp/usb/TimeoutException.h],
    [mtp/usb/DeviceBusyException.h], [mtp/usb/DeviceNotFoundException.h]) are
    not part of this translation unit.  The handlers of [ClearHalt], [Submit]
    and of the constructor read [ex.what()] from a [std::exception], and the
    spec lets "any failure" reach them: every class of the taxonomy derives
    from [std::exception]. *)
Definition is_std_exception (ex : exn) : bool := true.

Definition is_TimeoutException (ex : exn) : bool :=
  match ex with TimeoutException _ => true | _ => false end.

(** ** Endpoints *)

(** [EndpointType] is a scoped enumeration, declared with the endpoint
    classes outside this file; [OutOfRange] stands for a value of its
    underlying type that is none of the four enumerators. *)
Inductive EndpointType : Type :=
| Control
| Isochronous
| Bulk
| Interrupt
| OutOfRange (raw : Z).

(** Modelled from the spec: the endpoint class is declared outside this file;
    an endpoint descriptor "exposes address, transfer type, and maximum
    packet size". *)
Record Endpoint : Type := mkEndpoint {
  GetAddress : Z;
  GetType : EndpointType;
  GetMaxPacketSize : Z
}.

(** [Device::TransactionType] *)
Definition TransactionType (ep : Endpoint) : exn + Z :=
  match GetType ep with
  | Control => inr USBDEVFS_URB_TYPE_CONTROL
  | Isochronous => inr USBDEVFS_URB_TYPE_ISO
  | Bulk => inr USBDEVFS_URB_TYPE_BULK
  | Interrupt => inr USBDEVFS_URB_TYPE_INTERRUPT
  | OutOfRange _ => inl (runtime_error "invalid endpoint type")
  end.

(** ** The transfer buffer of an [Urb] *)

Definition MaxBufferSize : Z := 4096.

(** The argument of [Buffer(...)] in the constructor's initialiser list:
    [std::max(PacketSize, MaxBufferSize / PacketSize * PacketSize)].
    Dividing by a zero [PacketSize] is undefined: [None]. *)
Definition Urb_buffer_size (PacketSize : Z) : option Z :=
  if PacketSize =? 0 then None
  else Some (Z.max PacketSize (Z.quot MaxBufferSize PacketSize * PacketSize)).

(** ** Kernel structures and the [Urb] object *)

Abbreviation ByteArray := (list byte).

Record usbdevfs_urb : Type := mk_usbdevfs_urb {
  type : Z;
  endpoint : Z;
  flags : Z;
  buffer_length : Z;
  actual_length : Z
}.

Record usbdevfs_ctrltransfer : Type := mk_usbdevfs_ctrltransfer {
  bRequestType : Z;
  bRequest : Z;
  wValue : Z;
  wIndex : Z;
  wLength : Z;
  ctrl_timeout : Z
}.

(** [this] is the identity of the object: the value of the [UrbPtr] that owns
    it and, equivalently, the key [&urb->KernelUrb] of the pending table. *)
Record Urb : Type := mkUrb {
  this : Z;
  Fd : Z;
  PacketSize : Z;
  Buffer : ByteArray;
  KernelUrb : usbdevfs_urb
}.

Definition set_Buffer (b : ByteArray) (urb : Urb) : Urb :=
  mkUrb (this urb) (Fd urb) (PacketSize urb) b (KernelUrb urb).

Definition set_KernelUrb (k : usbdevfs_urb) (urb : Urb) : Urb :=
  mkUrb (this urb) (Fd urb) (PacketSize urb) (Buffer urb) k.

Definition set_flags (f : Z) (k : usbdevfs_urb) : usbdevfs_urb :=
  mk_usbdevfs_urb (type k) (endpoint k) f (buffer_length k) (actual_length k).

Definition set_buffer_length (n : Z) (k : usbdevfs_urb) : usbdevfs_urb :=
  mk_usbdevfs_urb (type k) (endpoint k) (flags k) n (actual_length k).

Definition set_actual_length (n : Z) (k : usbdevfs_urb) : usbdevfs_urb :=
  mk_usbdevfs_urb (type k) (endpoint k) (flags k) (buffer_length k) n.

(** Memory written through a pointer to the start of a buffer: the first
    bytes are replaced, the length of the buffer does not change. *)
Definition overwrite (d buf : ByteArray) : ByteArray :=
  take (length buf) d ++ drop (length d) buf.

(** [std::vector::resize] *)
Definition resize (n : nat) (v : ByteArray) : ByteArray :=
  take n v ++ replicate (n - length v)%nat Byte.x00.

(** [Urb::Urb]; [this] is the address the allocation returned. *)
Definition Urb_new (this : Z) (fd : Z) (type : Z) (ep : Endpoint) : option Urb :=
  match Urb_buffer_size (GetMaxPacketSize ep) with
  | None => None
  | Some size =>
      Some (mkUrb this fd (GetMaxPacketSize ep)
              (replicate (Z.to_nat size) Byte.x00)
              (mk_usbdevfs_urb type (GetAddress ep) 0 size 0))
  end.

Definition Urb_GetTransferSize (urb : Urb) : Z := Z.of_nat (length (Buffer urb)).

(** [Urb::SetFlag<Flag>] *)
Definition Urb_SetFlag (Flag : Z) (value : bool) (urb : Urb) : Urb :=
  let k := KernelUrb urb in
  if value then set_KernelUrb (set_flags (Z.lor (flags k) Flag) k) urb
  else set_KernelUrb (set_flags (Z.land (flags k) (Z.lnot Flag)) k) urb.

Definition Urb_SetContinuationFlag (continuation : bool) (urb : Urb) : Urb :=
  Urb_SetFlag USBDEVFS_URB_BULK_CONTINUATION continuation urb.

Definition Urb_SetZeroPacketFlag (zero : bool) (urb : Urb) : Urb :=
  Urb_SetFlag USBDEVFS_URB_ZERO_PACKET zero urb.

(** Modelled from the spec: [IObjectInputStream] is declared outside this
    translation unit.  A stream is the sequence of bytes it has left; [Read]
    "pulls up to [size] bytes" and returns them with the rest of the stream. *)
Definition IObjectInputStream_Read (inputStream : list byte) (size : Z)
  : list byte * list byte :=
  (take (Z.to_nat size) inputStream, drop (Z.to_nat size) inputStream).

(** [Urb::Send(inputStream, size)]: the urb, the count [r] and the stream after
    the read. *)
Definition Urb_Send (urb : Urb) (inputStream : list byte) (size : Z)
  : Urb * Z * list byte :=
  let '(got, rest) := IObjectInputStream_Read inputStream size in
  let r := Z.of_nat (length got) in
  (set_KernelUrb (set_buffer_length r (KernelUrb urb))
     (set_Buffer (overwrite got (Buffer urb)) urb), r, rest).

(** ** Effects: environment answers, events, state *)

(** What a system call returned and the [errno] it left. *)
Record sysret : Type := mk_sysret { rv : Z; errno : Z }.

Record timeval : Type := mk_timeval { tv_sec : Z; tv_usec : Z }.

Inductive Request : Type :=
| USBDEVFS_CLAIMINTERFACE (interfaceNumber : Z)
| USBDEVFS_RELEASEINTERFACE (interfaceNumber : Z)
| USBDEVFS_SUBMITURB (urb : Z) (k : usbdevfs_urb) (payload : list byte)
| USBDEVFS_DISCARDURB (urb : Z)
| USBDEVFS_REAPURBNDELAY
| USBDEVFS_CLEAR_HALT (index : Z)
| USBDEVFS_CONTROL (ctrl : usbdevfs_ctrltransfer).

Inductive Message : Type :=
| ms_since_the_last_poll_call (ms : Z)
| got_unknown_urb (completedKernelUrb : Z)
| error_while_submitting_urb (ex : exn)
| clearing_halt_status_for_ep (address : Z) (ex : exn)
| read_control (type req value index : Z)
| write_control (type req value index : Z).

Inductive Event : Type :=
| EvIoctl (fd : Z) (req : Request)
| EvPoll (fd : Z) (timeout : Z)
| EvGettimeofday
| EvError (m : Message)
| EvDebug (m : Message)
| EvPerror (s : string)
| EvWrite (data : list byte).

(** The members of [Device] that the transfer paths use, and the trace of
    system calls, log lines and stream writes performed so far (oldest
    first).  [_urbs] maps [&urb->KernelUrb] to the [UrbPtr]. *)
Record State : Type := mkState {
  _fd : Z;
  _capabilities : Z;
  _urbs : gmap Z Z;
  trace : list Event
}.

Definition set_urbs (m : gmap Z Z) (s : State) : State :=
  mkState (_fd s) (_capabilities s) m (trace s).

Definition add_events (evs : list Event) (s : State) : State :=
  mkState (_fd s) (_capabilities s) (_urbs s) (trace s ++ evs).

(** How a call ends.  [Undefined]: the C++ has no defined behaviour (division
    by zero).  [Waiting]: the call is still inside its loop when the recorded
    answers of the environment end. *)
Inductive Outcome (A : Type) : Type :=
| Returned (a : A)
| Threw (ex : exn)
| Undefined
| Waiting.

Arguments Returned {A} a.
Arguments Threw {A} ex.
Arguments Undefined {A}.
Arguments Waiting {A}.

Definition M (A : Type) : Type := State -> State * Outcome A.

Definition ret {A} (a : A) : M A := fun s => (s, Returned a).

Definition bind {A B} (m : M A) (k : A -> M B) : M B :=
  fun s =>
    match m s with
    | (s', Returned a) => k a s'
    | (s', Threw ex) => (s', Threw ex)
    | (s', Undefined) => (s', Undefined)
    | (s', Waiting) => (s', Waiting)
    end.

Definition throw {A} (ex : exn) : M A := fun s => (s, Threw ex).

(** [try { m } catch (...) { h ex }] *)
Definition try_catch {A} (m : M A) (h : exn -> M A) : M A :=
  fun s =>
    match m s with
    | (s', Threw ex) => h ex s'
    | r => r
    end.

Declare Scope m_scope.
Delimit Scope m_scope with m.
Notation "x <- m ;; k" := (bind m (fun x => k))
  (at level 20, m at level 99, k at level 200, only parsing) : m_scope.
Notation "m ;;; k" := (bind m (fun _ => k))
  (at level 20, k at level 200, only parsing) : m_scope.
Local Open Scope m_scope.

Definition emit (ev : Event) : M unit := fun s => (add_events [ev] s, Returned tt).
Definition get_fd : M Z := fun s => (s, Returned (_fd s)).
Definition get_capabilities : M Z := fun s => (s, Returned (_capabilities s)).
Definition error (m : Message) : M unit := emit (EvError m).
Definition debug (m : Message) : M unit := emit (EvDebug m).
Definition perror (what : string) : M unit := emit (EvPerror what).

(** The macro [IOCTL(...)]; [what] is the text ["ioctl(" #__VA_ARGS__ ")"]. *)
Definition IOCTL (fd : Z) (req : Request) (what : string) (r : sysret) : M unit :=
  emit (EvIoctl fd req) ;;;
  if rv r <? 0 then
    if errno r =? EBUSY then throw DeviceBusyException
    else if errno r =? ENODEV then throw DeviceNotFoundException
    else throw (posix_Exception what (errno r))
  else ret tt.

(** ** [InterfaceToken] *)

Record InterfaceToken : Type := mkInterfaceToken {
  tok_fd : Z;
  tok_interfaceNumber : Z
}.

(** [InterfaceToken::InterfaceToken] *)
Definition InterfaceToken_new (fd interfaceNumber : Z) (r : sysret) : M InterfaceToken :=
  IOCTL fd (USBDEVFS_CLAIMINTERFACE interfaceNumber)
    "ioctl(_fd, USBDEVFS_CLAIMINTERFACE, &interfaceNumber)" r ;;;
  ret (mkInterfaceToken fd interfaceNumber).

(** [InterfaceToken::~InterfaceToken]: a bare [ioctl], its result [r] unread. *)
Definition InterfaceToken_delete (tok : InterfaceToken) (r : sysret) : M unit :=
  emit (EvIoctl (tok_fd tok) (USBDEVFS_RELEASEINTERFACE (tok_interfaceNumber tok))).

(** ** Methods of [Urb] that talk to the kernel *)

(** [Urb::Submit] *)
Definition Urb_Submit (urb : Urb) (r : sysret) : M unit :=
  IOCTL (Fd urb)
    (USBDEVFS_SUBMITURB (this urb) (KernelUrb urb)
       (take (Z.to_nat (buffer_length (KernelUrb urb))) (Buffer urb)))
    "ioctl(Fd, USBDEVFS_SUBMITURB, &KernelUrb)" r.

(** [Urb::Discard] *)
Definition Urb_Discard (urb : Urb) (r : Z) : M unit :=
  emit (EvIoctl (Fd urb) (USBDEVFS_DISCARDURB (this urb))) ;;;
  if negb (r =? 0) then perror "ioctl(USBDEVFS_DISCARDURB)" else ret tt.

(** Modelled from the spec: [IObjectOutputStream] is declared outside this
    translation unit.  [Write] hands the bytes to the sink, which takes all of
    them, and returns their number. *)
Definition IObjectOutputStream_Write (data : list byte) : M Z :=
  emit (EvWrite data) ;;; ret (Z.of_nat (length data)).

(** [Urb::Recv(outputStream)] *)
Definition Urb_Recv (urb : Urb) : M Z :=
  IObjectOutputStream_Write
    (take (Z.to_nat (actual_length (KernelUrb urb))) (Buffer urb)).

(** ** [Device::Reap] *)

(** The answers of the environment to one call of [Reap]: the two
    [gettimeofday], the [poll], the [USBDEVFS_REAPURBNDELAY] with the pointer
    it stores on success, and what the kernel has left in the completed
    request: its [actual_length] and the bytes moved into its buffer. *)
Record ReapEnv : Type := mkReapEnv {
  env_started : sysret * timeval;
  env_poll : sysret;
  env_now : sysret * timeval;
  env_reapurb : sysret;
  env_urb : Z;
  env_actual_length : Z;
  env_data : list byte
}.

(** Conversion of an integer to [int]. *)
Definition to_int (z : Z) : Z := (z + 2 ^ 31) mod 2 ^ 32 - 2 ^ 31.

Definition gettimeofday (r : sysret * timeval) : M timeval :=
  emit EvGettimeofday ;;;
  if rv (fst r) =? -1 then throw (posix_Exception "gettimeofday" (errno (fst r)))
  else ret (snd r).

Definition Reap (timeout : Z) (e : ReapEnv) : M Z :=
  started <- gettimeofday (env_started e) ;;
  fd <- get_fd ;;
  emit (EvPoll fd timeout) ;;;
  let r := rv (env_poll e) in
  now <- gettimeofday (env_now e) ;;
  (if r <? 0 then throw (posix_Exception "poll" (errno (env_poll e))) else ret tt) ;;;
  (if (r =? 0) && (timeout >? 0) then
     let ms := to_int ((tv_sec now - tv_sec started) * 1000
                       + Z.quot (tv_usec now - tv_usec started) 1000) in
     error (ms_since_the_last_poll_call ms)
   else ret tt) ;;;
  emit (EvIoctl fd USBDEVFS_REAPURBNDELAY) ;;;
  let r := rv (env_reapurb e) in
  if r =? 0 then ret (env_urb e)
  else if errno (env_reapurb e) =? EAGAIN then
    throw (TimeoutException "timeout reaping usb urb")
  else throw (posix_Exception "ioctl" (errno (env_reapurb e))).

(** ** [Device::ClearHalt] *)

Definition ClearHalt (ep : Endpoint) (r : sysret) : M unit :=
  try_catch
    (fd <- get_fd ;;
     IOCTL fd (USBDEVFS_CLEAR_HALT (GetAddress ep))
       "ioctl(_fd.Get(), USBDEVFS_CLEAR_HALT, &index)" r)
    (fun ex =>
       if is_std_exception ex then
         error (clearing_halt_status_for_ep (GetAddress ep) ex)
       else throw ex).

(** ** [Device::Submit] *)

(** The answers of the environment to one call of [Submit]: the submission,
    the successive calls of [Reap], and the cancellation. *)
Record SubmitEnv : Type := mkSubmitEnv {
  env_submit : sysret;
  env_reaps : list ReapEnv;
  env_discard : Z
}.

(** [_urbs.insert(std::make_pair(k, v))]: an existing key keeps its value. *)
Definition urbs_insert (k v : Z) : M unit :=
  fun s =>
    (set_urbs (match _urbs s !! k with
               | Some _ => _urbs s
               | None => <[k := v]> (_urbs s)
               end) s, Returned tt).

Definition urbs_find (k : Z) : M (option Z) :=
  fun s => (s, Returned (_urbs s !! k)).

Definition urbs_erase (k : Z) : M unit :=
  fun s => (set_urbs (delete k (_urbs s)) s, Returned tt).

(** What a successful reap of [e] has made of the memory of [urb]: nothing
    unless the completed request is the one of [urb]. *)
Definition completed (e : ReapEnv) (urb : Urb) : Urb :=
  if env_urb e =? this urb then
    set_KernelUrb (set_actual_length (env_actual_length e) (KernelUrb urb))
      (set_Buffer (overwrite (env_data e) (Buffer urb)) urb)
  else urb.

(** The [while(true)] of [Submit]; one answer of [reaps] per iteration. *)
Fixpoint Submit_loop (urb : Urb) (timeout : Z) (reaps : list ReapEnv) : M Urb :=
  match reaps with
  | [] => fun s => (s, Waiting)
  | e :: reaps' =>
      completedKernelUrb <- Reap timeout e ;;
      let urb := completed e urb in
      urbIt <- urbs_find completedKernelUrb ;;
      match urbIt with
      | None =>
          error (got_unknown_urb completedKernelUrb) ;;;
          Submit_loop urb timeout reaps'
      | Some completedUrb =>
          urbs_erase completedKernelUrb ;;;
          if completedUrb =? this urb then ret urb
          else Submit_loop urb timeout reaps'
      end
  end.

(** The two [catch] clauses of [Submit], in their order. *)
Definition Submit_catch (urb : Urb) (e : SubmitEnv) (ex : exn) : M Urb :=
  if is_TimeoutException ex then
    Urb_Discard urb (env_discard e) ;;; throw ex
  else if is_std_exception ex then
    error (error_while_submitting_urb ex) ;;;
    Urb_Discard urb (env_discard e) ;;; throw ex
  else throw ex.

Definition Submit (urb : Urb) (timeout : Z) (e : SubmitEnv) : M Urb :=
  Urb_Submit urb (env_submit e) ;;;
  urbs_insert (this urb) (this urb) ;;;
  try_catch (Submit_loop urb timeout (env_reaps e)) (Submit_catch urb e).

(** ** [Device::WriteBulk] and [Device::ReadBulk] *)

Definition has_capability (capabilities cap : Z) : bool :=
  negb (Z.land capabilities cap =? 0).

(** The [do ... while] of [WriteBulk]; one [SubmitEnv] per iteration.  The
    result is what is left of the input stream. *)
Fixpoint WriteBulk_loop (urb : Urb) (transferSize : Z) (inputStream : list byte)
    (continuation : bool) (timeout : Z) (envs : list SubmitEnv) : M (list byte) :=
  match envs with
  | [] => fun s => (s, Waiting)
  | e :: envs' =>
      let '(urb, r, inputStream) := Urb_Send urb inputStream transferSize in
      capabilities <- get_capabilities ;;
      let urb :=
        if has_capability capabilities USBDEVFS_CAP_ZERO_PACKET
        then Urb_SetZeroPacketFlag (negb (r =? transferSize)) urb else urb in
      let '(urb, continuation) :=
        if has_capability capabilities USBDEVFS_CAP_BULK_CONTINUATION
        then (Urb_SetContinuationFlag continuation urb, true)
        else (urb, continuation) in
      urb <- Submit urb timeout e ;;
      if r =? transferSize
      then WriteBulk_loop urb transferSize inputStream continuation timeout envs'
      else ret inputStream
  end.

(** [this] is the address of the object [std::make_shared<Urb>] creates. *)
Definition WriteBulk (this : Z) (ep : Endpoint) (inputStream : list byte)
    (timeout : Z) (envs : list SubmitEnv) : M (list byte) :=
  fd <- get_fd ;;
  match Urb_new this fd USBDEVFS_URB_TYPE_BULK ep with
  | None => fun s => (s, Undefined)
  | Some urb =>
      WriteBulk_loop urb (Urb_GetTransferSize urb) inputStream false timeout envs
  end.

(** The [do ... while] of [ReadBulk]; one [SubmitEnv] per iteration. *)
Fixpoint ReadBulk_loop (urb : Urb) (transferSize : Z) (continuation : bool)
    (timeout : Z) (envs : list SubmitEnv) : M unit :=
  match envs with
  | [] => fun s => (s, Waiting)
  | e :: envs' =>
      capabilities <- get_capabilities ;;
      let '(urb, continuation) :=
        if has_capability capabilities USBDEVFS_CAP_BULK_CONTINUATION
        then (Urb_SetContinuationFlag continuation urb, true)
        else (urb, continuation) in
      urb <- Submit urb timeout e ;;
      r <- Urb_Recv urb ;;
      if r =? transferSize
      then ReadBulk_loop urb transferSize continuation timeout envs'
      else ret tt
  end.

Definition ReadBulk (this : Z) (ep : Endpoint) (timeout : Z)
    (envs : list SubmitEnv) : M unit :=
  fd <- get_fd ;;
  match Urb_new this fd USBDEVFS_URB_TYPE_BULK ep with
  | None => fun s => (s, Undefined)
  | Some urb => ReadBulk_loop urb (Urb_GetTransferSize urb) false timeout envs
  end.

(** ** Control transfers *)

(** The answer of the environment to [ioctl(fd, USBDEVFS_CONTROL, &ctrl)] and
    the bytes the kernel stored through [ctrl.data]. *)
Record ControlEnv : Type := mkControlEnv {
  env_control : sysret;
  env_stored : list byte
}.

Definition mk_ctrl (type req value index : Z) (size : nat) (timeout : Z)
  : usbdevfs_ctrltransfer :=
  mk_usbdevfs_ctrltransfer type req value index
    (Z.of_nat size mod 2 ^ 16) (timeout mod 2 ^ 32).

(** [Device::ReadControl]; [data] is passed by reference: the result carries
    the buffer the caller sees afterwards, whatever the outcome. *)
Definition ReadControl (type req value index : Z) (data : ByteArray)
    (timeout : Z) (e : ControlEnv) (s : State) : State * ByteArray * Outcome unit :=
  let s := add_events [EvDebug (read_control type req value index)] s in
  let ctrl := mk_ctrl type req value index (length data) timeout in
  let fd := _fd s in
  let s := add_events [EvIoctl fd (USBDEVFS_CONTROL ctrl)] s in
  let data := overwrite (take (Z.to_nat (wLength ctrl)) (env_stored e)) data in
  let r := rv (env_control e) in
  if r >=? 0 then (s, resize (Z.to_nat r) data, Returned tt)
  else if errno (env_control e) =? EAGAIN then
    (s, data, Threw (TimeoutException "timeout sending control transfer"))
  else (s, data, Threw (posix_Exception "ioctl" (errno (env_control e)))).

(** [Device::WriteControl]; [data] is read only. *)
Definition WriteControl (type req value index : Z) (data : ByteArray)
    (timeout : Z) (e : ControlEnv) : M unit :=
  debug (write_control type req value index) ;;;
  fd <- get_fd ;;
  emit (EvIoctl fd (USBDEVFS_CONTROL
                      (mk_ctrl type req value index (length data) timeout))) ;;;
  let r := rv (env_control e) in
  if r >=? 0 then ret tt
  else if errno (env_control e) =? EAGAIN then
    throw (TimeoutException "timeout sending control transfer")
  else throw (posix_Exception "ioctl" (errno (env_control e))).

(** ** The remaining methods of [Urb] *)

(** [Urb::Send(const ByteArray &)]: the urb and the count [r]. *)
Definition Urb_Send_bytes (urb : Urb) (inputData : ByteArray) : Urb * Z :=
  let r := Nat.min (length (Buffer urb)) (length inputData) in
  (set_KernelUrb (set_buffer_length (Z.of_nat r) (KernelUrb urb))
     (set_Buffer (overwrite (take r inputData) (Buffer urb)) urb),
   Z.of_nat r).

(** [Urb::Recv()]: the range [Buffer.begin(), Buffer.begin() + actual_length)
    is a range of the buffer only when [actual_length] lies within it;
    otherwise the construction is undefined: [None]. *)
Definition Urb_Recv_bytes (urb : Urb) : option ByteArray :=
  let n := actual_length (KernelUrb urb) in
  if (0 <=? n) && (n <=? Z.of_nat (length (Buffer urb)))
  then Some (take (Z.to_nat n) (Buffer urb))
  else None.

(** ** [Device::Device] *)

Definition USBDEVFS_CAP_NO_PACKET_SIZE_LIM : Z := 0x04.
Definition USBDEVFS_CAP_BULK_SCATTER_GATHER : Z := 0x08.
Definition USBDEVFS_CAP_REAP_AFTER_DISCONNECT : Z := 0x10.

(** What the body of the macro [IOCTL(...)] throws on the answer [r]. *)
Definition IOCTL_exception (what : string) (r : sysret) : option exn :=
  if rv r <? 0 then
    if errno r =? EBUSY then Some DeviceBusyException
    else if errno r =? ENODEV then Some DeviceNotFoundException
    else Some (posix_Exception what (errno r))
  else None.

(** The effects of the constructor, in order: the capability query, the
    [error] line of its handler and the [debug] lines. *)
Inductive ConstructorEvent : Type :=
| GET_CAPABILITIES (fd : Z)
| get_usbfs_capabilities_failed (ex : exn)
| capabilities_are (capabilities : Z)
| capability (NAME : string)
| unknown_capability (capabilities : Z)
| no_capability.

(** The macro [PRINT_CAP(CAP, NAME)], on the local [capabilities] and the
    lines printed so far. *)
Definition PRINT_CAP (CAP : Z) (NAME : string)
    (st : Z * list ConstructorEvent) : Z * list ConstructorEvent :=
  let '(capabilities, out) := st in
  if has_capability capabilities CAP
  then (Z.land capabilities (Z.lnot CAP), out ++ [capability NAME])
  else (capabilities, out).

(** The capability report of the constructor, from [debug("capabilities =
    ...")] on. *)
Definition report_capabilities (_capabilities : Z) : list ConstructorEvent :=
  let out := [capabilities_are _capabilities] in
  if negb (_capabilities =? 0) then
    let st := (_capabilities, out) in
    let st := PRINT_CAP USBDEVFS_CAP_ZERO_PACKET "<zero>" st in
    let st := PRINT_CAP USBDEVFS_CAP_BULK_CONTINUATION "<bulk-continuation>" st in
    let st := PRINT_CAP USBDEVFS_CAP_NO_PACKET_SIZE_LIM "<no-packet-size-limit>" st in
    let st := PRINT_CAP USBDEVFS_CAP_BULK_SCATTER_GATHER "<bulk-scatter-gather>" st in
    let st := PRINT_CAP USBDEVFS_CAP_REAP_AFTER_DISCONNECT "<reap-after-disconnect>" st in
    let '(capabilities, out) := st in
    if negb (capabilities =? 0) then out ++ [unknown_capability capabilities]
    else out
  else out ++ [no_capability].

(** [Device::Device].  [r] answers the capability query and [probed] is the
    [u32] the kernel stores in [_capabilities] when the query succeeds.  The
    result is the exception that leaves the constructor, or the new object,
    its pending table empty, with the effects of the constructor. *)
Definition Device_new (fd : Z) (r : sysret) (probed : Z)
  : exn + State * list ConstructorEvent :=
  let what := "ioctl(_fd.Get(), USBDEVFS_GET_CAPABILITIES, &_capabilities)"%string in
  let probe :=
    match IOCTL_exception what r with
    | None => inr (probed mod 2 ^ 32, [GET_CAPABILITIES fd])
    | Some ex =>
        if is_std_exception ex
        then inr (0, [GET_CAPABILITIES fd; get_usbfs_capabilities_failed ex])
        else inl ex
    end in
  match probe with
  | inl ex => inl ex
  | inr (_capabilities, out) =>
      inr (mkState fd _capabilities ∅ [],
           out ++ report_capabilities _capabilities)
  end.

(** * Vocabulary of the properties *)

(** ** Sizes and buffers *)

(** [size] is the largest multiple of [P] that does not exceed [ceiling]. *)
Definition largest_multiple_upto (P ceiling size : Z) : Prop :=
  (P | size) /\ size <= ceiling /\
  forall m, (P | m) -> m <= ceiling -> m <= size.

(** What the caller's buffer holds when [ioctl(fd, USBDEVFS_CONTROL, &ctrl)]
    comes back: the kernel has stored at most [wLength] bytes at its start. *)
Definition after_control (data : ByteArray) (e : ControlEnv) : ByteArray :=
  overwrite (take (Z.to_nat (Z.of_nat (length data) mod 2 ^ 16)) (env_stored e)) data.

(** ** Reading traces *)

(** The events performed between two states of one run. *)
Definition since (s s' : State) : list Event :=
  drop (length (trace s)) (trace s').

Definition discard_of (ev : Event) : option Z :=
  match ev with EvIoctl _ (USBDEVFS_DISCARDURB u) => Some u | _ => None end.

Definition submit_of (ev : Event) : option (usbdevfs_urb * list byte) :=
  match ev with
  | EvIoctl _ (USBDEVFS_SUBMITURB _ k payload) => Some (k, payload)
  | _ => None
  end.

Definition write_of (ev : Event) : option (list byte) :=
  match ev with EvWrite data => Some data | _ => None end.

Definition perror_of (ev : Event) : option string :=
  match ev with EvPerror what => Some what | _ => None end.

(** The cancellations, the submissions, the stream writes and the [perror]
    lines of a trace, in order. *)
Definition discards (tr : list Event) : list Z := omap discard_of tr.
Definition submitted (tr : list Event) : list (usbdevfs_urb * list byte) :=
  omap submit_of tr.
Definition written (tr : list Event) : list (list byte) := omap write_of tr.
Definition perrors (tr : list Event) : list string := omap perror_of tr.

(** ** Answers of [Reap] and runs of [Submit] *)

(** What [Reap] answers, in every state. *)
Definition Reap_returns (timeout : Z) (e : ReapEnv) (k : Z) : Prop :=
  forall s, snd (Reap timeout e s) = Returned k.

Definition Reap_throws (timeout : Z) (e : ReapEnv) (ex : exn) : Prop :=
  forall s, snd (Reap timeout e s) = Threw ex.

(** The events of one call of [Reap] on descriptor [fd]. *)
Definition Reap_events (timeout : Z) (e : ReapEnv) (fd : Z) : list Event :=
  trace (fst (Reap timeout e (mkState fd 0 ∅ []))).

(** The events of [Reap]: the clock, the [poll], the elapsed-time line, the
    reap itself. *)
Definition reap_event (ev : Event) : Prop :=
  match ev with
  | EvGettimeofday | EvPoll _ _ | EvIoctl _ USBDEVFS_REAPURBNDELAY
  | EvError (ms_since_the_last_poll_call _) => True
  | _ => False
  end.

(** Every key of the pending table is the [KernelUrb] of the request it maps
    to: the table holds [(&urb->KernelUrb, urb)] pairs only. *)
Definition wf_urbs (m : gmap Z Z) : Prop :=
  forall k v, m !! k = Some v -> v = k.

(** The events of the loop: those of [Reap] and [error] lines. *)
Definition loop_event (ev : Event) : Prop :=
  match ev with
  | EvGettimeofday | EvPoll _ _ | EvIoctl _ USBDEVFS_REAPURBNDELAY
  | EvError _ => True
  | _ => False
  end.

(** What a run of the loop leaves behind, started with the request of the
    call registered. *)
Record loop_post (urb : Urb) (s s' : State) (o : Outcome Urb) : Prop := {
  post_wf : wf_urbs (_urbs s');
  post_fd : _fd s' = _fd s;
  post_capabilities : _capabilities s' = _capabilities s;
  post_trace : exists evs, trace s' = trace s ++ evs /\ Forall loop_event evs;
  post_entry :
    match o with
    | Returned urb' =>
        _urbs s' !! this urb = None /\ this urb' = this urb /\ Fd urb' = Fd urb
    | Threw _ | Waiting => _urbs s' !! this urb = Some (this urb)
    | Undefined => False
    end
}.

(** Completions that [Reap] returns and that are not the one of [own]. *)
Definition other_completion (timeout own : Z) (r : ReapEnv) : Prop :=
  exists k, Reap_returns timeout r k /\ k <> own.

(** The table once [Submit] has registered [urb]. *)
Definition registered (urb : Urb) (m : gmap Z Z) : gmap Z Z :=
  match m !! this urb with
  | Some _ => m
  | None => <[this urb := this urb]> m
  end.

Definition submit_event (urb : Urb) : Event :=
  EvIoctl (Fd urb)
    (USBDEVFS_SUBMITURB (this urb) (KernelUrb urb)
       (take (Z.to_nat (buffer_length (KernelUrb urb))) (Buffer urb))).

(** What a call of [Submit] leaves behind, by the way it ends. *)
Definition Submit_ends (urb : Urb) (e : SubmitEnv) (s s' : State)
    (evs : list Event) (o : Outcome Urb) : Prop :=
  match o with
  | Returned urb' =>
      (rv (env_submit e) <? 0) = false /\
      _urbs s' !! this urb = None /\
      this urb' = this urb /\ Fd urb' = Fd urb /\
      discards evs = [] /\ perrors evs = []
  | Threw ex =>
      if rv (env_submit e) <? 0 then _urbs s' = _urbs s /\ evs = []
      else
        _urbs s' !! this urb = Some (this urb) /\
        discards evs = [this urb] /\
        perrors evs =
          (if env_discard e =? 0 then []
           else ["ioctl(USBDEVFS_DISCARDURB)"%string])
  | Waiting =>
      (rv (env_submit e) <? 0) = false /\
      _urbs s' !! this urb = Some (this urb) /\
      discards evs = [] /\ perrors evs = []
  | Undefined => False
  end.

(** The environments under which [Submit] sees its own completion:
    the submission is accepted, and after completions of other requests
    [Reap] returns the one of [own], answered by [last]. *)
Definition completes (timeout own : Z) (e : SubmitEnv) (last : ReapEnv) : Prop :=
  (rv (env_submit e) <? 0) = false /\
  exists pre rest,
    env_reaps e = pre ++ last :: rest /\
    Forall (other_completion timeout own) pre /\
    Reap_returns timeout last own.

(** ** Sample answers of the environment *)

Definition sys_ok : sysret := mk_sysret 0 0.

Definition clock (sec usec : Z) : sysret * timeval := (sys_ok, mk_timeval sec usec).

(** The descriptor is ready and the reap returns [k], a request that moved
    [data]. *)
Definition reap_of (k : Z) (data : list byte) : ReapEnv :=
  mkReapEnv (clock 0 0) (mk_sysret 1 0) (clock 0 2000) sys_ok
    k (Z.of_nat (length data)) data.

(** One second passes with nothing ready and the reap answers [EAGAIN]. *)
Definition reap_nothing : ReapEnv :=
  mkReapEnv (clock 0 0) (mk_sysret 0 0) (clock 1 0) (mk_sysret (-1) EAGAIN)
    0 0 [].

(** A request of 4 bytes at address 100 and a session with an empty table. *)
Definition sample_urb : Urb :=
  mkUrb 100 3 4 [x00; x00; x00; x00] (mk_usbdevfs_urb USBDEVFS_URB_TYPE_BULK 129 0 4 0).

Definition sample_state : State := mkState 3 0 ∅ [].

(** ** Flags and bulk transfers *)

(** The C test [flags & Flag]. *)
Definition has_flag (f Flag : Z) : bool := negb (Z.land f Flag =? 0).

Definition zero_packet (k : usbdevfs_urb) : bool :=
  has_flag (flags k) USBDEVFS_URB_ZERO_PACKET.

(** The request [WriteBulk] hands to [Submit], from the request of the
    previous iteration, the capabilities, the chunk read and the
    continuation state. *)
Definition WriteBulk_urb (capabilities : Z) (continuation : bool)
    (transferSize : Z) (got : list byte) (urb : Urb) : Urb :=
  let r := Z.of_nat (length got) in
  let urb1 := set_KernelUrb (set_buffer_length r (KernelUrb urb))
                (set_Buffer (overwrite got (Buffer urb)) urb) in
  let urb2 := if has_capability capabilities USBDEVFS_CAP_ZERO_PACKET
              then Urb_SetZeroPacketFlag (negb (r =? transferSize)) urb1
              else urb1 in
  if has_capability capabilities USBDEVFS_CAP_BULK_CONTINUATION
  then Urb_SetContinuationFlag continuation urb2 else urb2.

(** An environment in which the reap that follows the submission returns the
    request [own] at once, with [data] moved. *)
Definition prompt (own : Z) (data : list byte) : SubmitEnv :=
  mkSubmitEnv sys_ok [reap_of own data] 0.

(** The environments of a [Submit] whose own completion brings [chunk]: the
    kernel reports the length of [chunk] as [actual_length] and has stored
    [chunk] at the start of the buffer. *)
Definition receives (timeout own : Z) (e : SubmitEnv) (chunk : list byte) : Prop :=
  exists last,
    completes timeout own e last /\
    env_data last = chunk /\
    env_actual_length last = Z.of_nat (length chunk).

(** ** The constructor's report *)

(** The capabilities [PRINT_CAP] knows, in the order of the constructor. *)
Definition known_capabilities : list (Z * string) :=
  [(USBDEVFS_CAP_ZERO_PACKET, "<zero>"%string);
   (USBDEVFS_CAP_BULK_CONTINUATION, "<bulk-continuation>"%string);
   (USBDEVFS_CAP_NO_PACKET_SIZE_LIM, "<no-packet-size-limit>"%string);
   (USBDEVFS_CAP_BULK_SCATTER_GATHER, "<bulk-scatter-gather>"%string);
   (USBDEVFS_CAP_REAP_AFTER_DISCONNECT, "<reap-after-disconnect>"%string)].

(** The bits of a capability set that are none of the known ones. *)
Definition unknown_bits (capabilities : Z) : Z :=
  Z.land capabilities (Z.lnot 0x1f).

Definition capability_of (ev : ConstructorEvent) : option string :=
  match ev with capability NAME => Some NAME | _ => None end.

Definition unknown_of (ev : ConstructorEvent) : option Z :=
  match ev with unknown_capability c => Some c | _ => None end.

Definition failed_of (ev : ConstructorEvent) : option exn :=
  match ev with get_usbfs_capabilities_failed ex => Some ex | _ => None end.

Definition none_of (ev : ConstructorEvent) : option unit :=
  match ev with no_capability => Some tt | _ => None end.

(** ** Clocks *)

(** The microseconds from [started] to [now]. *)
Definition elapsed_us (started now : timeval) : Z :=
  (tv_sec now - tv_sec started) * 1000000 + (tv_usec now - tv_usec started).

(** The three calls of [Reap] that come before the reap itself succeeded. *)
Definition Reap_ready (e : ReapEnv) : Prop :=
  rv (fst (env_started e)) <> -1 /\ rv (fst (env_now e)) <> -1 /\
  0 <= rv (env_poll e).

(** ** Failures of [Submit] *)

Definition failure_of (ev : Event) : option exn :=
  match ev with
  | EvError (error_while_submitting_urb ex) => Some ex
  | _ => None
  end.

(** The exceptions of the lines "error while submitting urb" of a trace. *)
Definition failures (tr : list Event) : list exn := omap failure_of tr.

(** The identities [Reap] is given to return by a list of answers. *)
Definition reaped (reaps : list ReapEnv) : list Z := map env_urb reaps.

(** A [Reap] whose [poll] fails with [EINTR]. *)
Definition reap_interrupted : ReapEnv :=
  mkReapEnv (clock 0 0) (mk_sysret (-1) 4) (clock 0 0) sys_ok 0 0 [].

(** ** Flags of the requests of a bulk transfer *)

Definition bulk_continuation (k : usbdevfs_urb) : bool :=
  has_flag (flags k) USBDEVFS_URB_BULK_CONTINUATION.

(** The continuation flags of [k] successive requests of one transfer whose
    loop starts with [continuation = c]: with the capability the first
    carries [c] and the others the flag; without it none does. *)
Definition continuations (capable c : bool) (k : nat) : list bool :=
  match k with
  | O => []
  | S k' => (capable && c) :: replicate k' capable
  end.

(** The value of [continuation] after an iteration. *)
Definition continued (capable c : bool) : bool := if capable then true else c.

(** The requests a loop of [WriteBulk] may start from: the one of this
    transfer, with a whole buffer and no flag the loop will not set
    itself. *)
Record bulk_urb (own : Z) (n : nat) (capabilities : Z) (urb : Urb) : Prop := {
  bulk_this : this urb = own;
  bulk_buffer : length (Buffer urb) = n;
  bulk_zero : zero_packet (KernelUrb urb) = false;
  bulk_cont :
    has_capability capabilities USBDEVFS_CAP_BULK_CONTINUATION = false ->
    bulk_continuation (KernelUrb urb) = false
}.

(** What a run of iterations of a bulk loop has done. *)
Record bulk_run (s s' : State) (evs : list Event) : Prop := {
  run_wf : wf_urbs (_urbs s');
  run_capabilities : _capabilities s' = _capabilities s;
  run_trace : trace s' = trace s ++ evs;
  run_discards : discards evs = []
}.

(** The value of [continuation] after [k] iterations. *)
Definition continued_after (capable c : bool) (k : nat) : bool :=
  match k with O => c | S _ => continued capable c end.

(** The environments under which the reap loop of [Submit] throws [ex]: the
    submission is accepted, and after completions of other requests [Reap]
    throws [ex]. *)
Definition fails_with (timeout own : Z) (e : SubmitEnv) (ex : exn) : Prop :=
  (rv (env_submit e) <? 0) = false /\
  exists pre t rest,
    env_reaps e = pre ++ t :: rest /\
    Forall (other_completion timeout own) pre /\
    Reap_throws timeout t ex.

(** A submission that is accepted and then finds nothing to reap. *)
Definition silent : SubmitEnv := mkSubmitEnv sys_ok [reap_nothing] 0.

(** The requests a loop of [ReadBulk] may start from: the one of this
    transfer, asking for a whole buffer, with no continuation flag the loop
    will not set itself. *)
Record read_urb (own : Z) (n : nat) (capabilities : Z) (urb : Urb) : Prop := {
  read_this : this urb = own;
  read_buffer : length (Buffer urb) = n;
  read_length : buffer_length (KernelUrb urb) = Z.of_nat n;
  read_cont :
    has_capability capabilities USBDEVFS_CAP_BULK_CONTINUATION = false ->
    bulk_continuation (KernelUrb urb) = false
}.

(** * Properties *)

(** ** Size of the transfer buffer *)

Lemma Urb_buffer_size_pos (P : Z) :
  0 < P ->
  Urb_buffer_size P = Some (Z.max P (MaxBufferSize / P * P)).
Proof.
  intros HP. unfold Urb_buffer_size.
  destruct (Z.eqb_spec P 0) as [->|_]; [lia|].
  now rewrite Z.quot_div_nonneg by (unfold MaxBufferSize; lia).
Qed.

Lemma Urb_buffer_size_small (P : Z) :
  0 < P -> P <= MaxBufferSize ->
  Urb_buffer_size P = Some (MaxBufferSize / P * P).
Proof.
  intros HP Hle. rewrite Urb_buffer_size_pos by assumption.
  f_equal. apply Z.max_r.
  assert (1 <= MaxBufferSize / P) by (apply Z.div_le_lower_bound; lia).
  nia.
Qed.

Lemma Urb_buffer_size_large (P : Z) :
  MaxBufferSize < P -> Urb_buffer_size P = Some P.
Proof.
  intros Hlt. assert (0 < P) by (unfold MaxBufferSize in Hlt; lia).
  rewrite Urb_buffer_size_pos by assumption.
  rewrite Z.div_small by (unfold MaxBufferSize in *; lia).
  f_equal. lia.
Qed.

Lemma Urb_new_size (this fd type : Z) (ep : Endpoint) (size : Z) :
  Urb_buffer_size (GetMaxPacketSize ep) = Some size -> 0 <= size ->
  exists urb, Urb_new this fd type ep = Some urb /\
              Urb_GetTransferSize urb = size /\
              buffer_length (KernelUrb urb) = size.
Proof.
  intros Hs Hnn. unfold Urb_new. rewrite Hs. eexists. split; [reflexivity|].
  unfold Urb_GetTransferSize. cbn [Buffer KernelUrb buffer_length].
  rewrite length_replicate. lia.
Qed.

(** C3, as stated, fails for a packet size above the ceiling: an endpoint whose
    maximum packet size is 5000 gets a buffer of 5000 bytes, which is not below
    [MaxBufferSize], and no smaller nonnegative multiple of 5000 but 0 is. *)
Lemma Urb_buffer_exceeds_ceiling :
  exists urb,
    Urb_new 1 3 USBDEVFS_URB_TYPE_BULK (mkEndpoint 1 Bulk 5000) = Some urb /\
    Urb_GetTransferSize urb = 5000 /\
    MaxBufferSize < Urb_GetTransferSize urb /\
    ~ largest_multiple_upto 5000 MaxBufferSize (Urb_GetTransferSize urb).
Proof.
  eexists. split; [reflexivity|].
  split; [vm_compute; reflexivity|].
  split; [vm_compute; reflexivity|].
  intros (_ & Hle & _). vm_compute in Hle. now apply Hle.
Qed.

(** C3 (amended): for a positive maximum packet size [P] the buffer of a new
    [Urb] is a multiple of [P] and at least [P]; when [P] is at most
    [MaxBufferSize] it is the largest multiple of [P] that does not exceed
    [MaxBufferSize]; when [P] is larger it is [P] itself, above the
    ceiling. *)
Theorem Urb_transfer_size (this fd type : Z) (ep : Endpoint) :
  0 < GetMaxPacketSize ep ->
  exists urb,
    Urb_new this fd type ep = Some urb /\
    buffer_length (KernelUrb urb) = Urb_GetTransferSize urb /\
    (GetMaxPacketSize ep | Urb_GetTransferSize urb) /\
    GetMaxPacketSize ep <= Urb_GetTransferSize urb /\
    (GetMaxPacketSize ep <= MaxBufferSize ->
     largest_multiple_upto (GetMaxPacketSize ep) MaxBufferSize
       (Urb_GetTransferSize urb)) /\
    (MaxBufferSize < GetMaxPacketSize ep ->
     Urb_GetTransferSize urb = GetMaxPacketSize ep).
Proof.
  intros HP. set (P := GetMaxPacketSize ep) in *.
  destruct (Z_le_gt_dec P MaxBufferSize) as [Hle|Hgt].
  - destruct (Urb_new_size this fd type ep (MaxBufferSize / P * P))
      as (urb & Hnew & Hsz & Hbl).
    { now apply Urb_buffer_size_small. }
    { assert (0 <= MaxBufferSize / P) by (apply Z.div_pos; unfold MaxBufferSize; lia).
      nia. }
    exists urb. rewrite Hsz, Hbl.
    assert (Hq : 1 <= MaxBufferSize / P) by (apply Z.div_le_lower_bound; lia).
    assert (Hmul : MaxBufferSize / P * P <= MaxBufferSize)
      by (rewrite Z.mul_comm; apply Z.mul_div_le; lia).
    repeat split; try assumption; try lia.
    + exists (MaxBufferSize / P). reflexivity.
    + nia.
    + exists (MaxBufferSize / P). reflexivity.
    + intros m [q ->] Hm.
      assert (q <= MaxBufferSize / P) by (apply Z.div_le_lower_bound; lia).
      nia.
  - destruct (Urb_new_size this fd type ep P) as (urb & Hnew & Hsz & Hbl).
    { apply Urb_buffer_size_large. lia. }
    { lia. }
    exists urb. rewrite Hsz, Hbl.
    repeat split; try assumption; try lia.
    exists 1. lia.
Qed.

Lemma Urb_transfer_size_witness :
  exists urb,
    Urb_new 1 3 USBDEVFS_URB_TYPE_BULK (mkEndpoint 129 Bulk 3000) = Some urb /\
    buffer_length (KernelUrb urb) = Urb_GetTransferSize urb /\
    (3000 | Urb_GetTransferSize urb) /\
    3000 <= Urb_GetTransferSize urb /\
    (3000 <= MaxBufferSize ->
     largest_multiple_upto 3000 MaxBufferSize (Urb_GetTransferSize urb)) /\
    (MaxBufferSize < 3000 -> Urb_GetTransferSize urb = 3000).
Proof.
  apply (Urb_transfer_size 1 3 USBDEVFS_URB_TYPE_BULK (mkEndpoint 129 Bulk 3000)).
  simpl. lia.
Defined.

(** ** Transaction types *)

(** C9: [TransactionType] returns the usbfs tag of each of the four transfer
    types, the four tags are distinct, and for any other value of the
    enumeration it throws [std::runtime_error("invalid endpoint type")]. *)
Theorem TransactionType_total (ep : Endpoint) :
  match GetType ep with
  | Control => TransactionType ep = inr USBDEVFS_URB_TYPE_CONTROL
  | Isochronous => TransactionType ep = inr USBDEVFS_URB_TYPE_ISO
  | Bulk => TransactionType ep = inr USBDEVFS_URB_TYPE_BULK
  | Interrupt => TransactionType ep = inr USBDEVFS_URB_TYPE_INTERRUPT
  | OutOfRange _ =>
      TransactionType ep = inl (runtime_error "invalid endpoint type")
  end /\
  NoDup [USBDEVFS_URB_TYPE_CONTROL; USBDEVFS_URB_TYPE_ISO;
         USBDEVFS_URB_TYPE_BULK; USBDEVFS_URB_TYPE_INTERRUPT].
Proof.
  split.
  - unfold TransactionType. destruct (GetType ep); reflexivity.
  - now apply (bool_decide_unpack _).
Qed.

(** ** Control reads *)

Lemma length_overwrite (d buf : ByteArray) :
  length (overwrite d buf) = length buf.
Proof.
  unfold overwrite. rewrite length_app, length_take, length_drop. lia.
Qed.

Lemma length_resize (n : nat) (v : ByteArray) : length (resize n v) = n.
Proof.
  unfold resize. rewrite length_app, length_take, length_replicate. lia.
Qed.

Lemma resize_le (n : nat) (v : ByteArray) :
  (n <= length v)%nat -> resize n v = take n v.
Proof.
  intros Hle. unfold resize.
  replace (n - length v)%nat with 0%nat by lia. apply app_nil_r.
Qed.

(** C7: when the control [ioctl] returns [r >= 0], [ReadControl] returns and
    the caller's buffer has exactly [r] bytes (the first [r] bytes of the
    buffer when it was at least that long); when it fails, [errno == EAGAIN]
    gives [TimeoutException] and any other [errno] gives [posix::Exception]. *)
Theorem ReadControl_result (type req value index : Z) (data : ByteArray)
    (timeout : Z) (e : ControlEnv) (s : State) :
  let r := rv (env_control e) in
  let '(_, data', o) := ReadControl type req value index data timeout e s in
  if decide (0 <= r) then
    o = Returned tt /\ length data' = Z.to_nat r /\
    ((Z.to_nat r <= length data)%nat ->
     data' = take (Z.to_nat r) (after_control data e))
  else if decide (errno (env_control e) = EAGAIN) then
    o = Threw (TimeoutException "timeout sending control transfer")
  else
    o = Threw (posix_Exception "ioctl" (errno (env_control e))).
Proof.
  unfold ReadControl. cbn zeta.
  destruct (Z.geb_spec (rv (env_control e)) 0) as [Hge|Hlt].
  - destruct (decide (0 <= rv (env_control e))) as [_|Hn]; [|lia].
    split; [reflexivity|]. split; [apply length_resize|].
    intros Hle. unfold after_control. apply resize_le.
    now rewrite length_overwrite.
  - destruct (decide (0 <= rv (env_control e))) as [Hn|_]; [lia|].
    destruct (Z.eqb_spec (errno (env_control e)) EAGAIN) as [He|He];
      destruct (decide (errno (env_control e) = EAGAIN)); try contradiction;
      reflexivity.
Qed.

(** C10: when [ReadControl] throws, the caller's buffer has the length it had
    before the call. *)
Theorem ReadControl_failure_keeps_length (type req value index : Z)
    (data : ByteArray) (timeout : Z) (e : ControlEnv) (s s' : State)
    (data' : ByteArray) (ex : exn) :
  ReadControl type req value index data timeout e s = (s', data', Threw ex) ->
  length data' = length data.
Proof.
  unfold ReadControl. cbn zeta.
  destruct (rv (env_control e) >=? 0); [discriminate|].
  destruct (errno (env_control e) =? EAGAIN); intros [= _ <- _];
    apply length_overwrite.
Qed.

Lemma ReadControl_failure_keeps_length_witness :
  exists s' data' ex,
    ReadControl 0xc0 0x33 0 0 [x01; x02; x03] 1000
      (mkControlEnv (mk_sysret (-1) EAGAIN) []) (mkState 3 0 ∅ [])
    = (s', data', Threw ex) /\
    length data' = length [x01; x02; x03].
Proof.
  do 3 eexists. split; [reflexivity|].
  eapply (ReadControl_failure_keeps_length 0xc0 0x33 0 0 [x01; x02; x03] 1000
            (mkControlEnv (mk_sysret (-1) EAGAIN) []) (mkState 3 0 ∅ [])).
  reflexivity.
Defined.

(** ** Best-effort operations *)

(** C8: whatever the release and clear-halt [ioctl]s answer, the destructor
    of [InterfaceToken] and [ClearHalt] return normally. *)
Theorem release_and_ClearHalt_never_throw :
  (forall (tok : InterfaceToken) (r : sysret) (s : State),
      snd (InterfaceToken_delete tok r s) = Returned tt) /\
  (forall (ep : Endpoint) (r : sysret) (s : State),
      snd (ClearHalt ep r s) = Returned tt).
Proof.
  split.
  - reflexivity.
  - intros ep r s. unfold ClearHalt, try_catch, bind, get_fd, IOCTL, bind, emit.
    destruct (rv r <? 0); [|reflexivity].
    destruct (errno r =? EBUSY); [reflexivity|].
    destruct (errno r =? ENODEV); reflexivity.
Qed.

(** ** Traces *)

Lemma since_app (s s' : State) (evs : list Event) :
  trace s' = trace s ++ evs -> since s s' = evs.
Proof. intros H. unfold since. rewrite H. apply drop_app_length. Qed.

Lemma add_events_add_events (a b : list Event) (s : State) :
  add_events b (add_events a s) = add_events (a ++ b) s.
Proof. unfold add_events. cbn. now rewrite app_assoc. Qed.

(** ** [Reap] *)

Ltac reap_cases :=
  unfold Reap, gettimeofday, bind, emit, get_fd, error, emit, throw, ret;
  cbn beta iota zeta;
  repeat match goal with
         | |- context [if ?b then _ else _] => destruct b; cbn beta iota zeta
         end.

Lemma Reap_state (timeout : Z) (e : ReapEnv) (s : State) :
  fst (Reap timeout e s) = add_events (Reap_events timeout e (_fd s)) s.
Proof.
  unfold Reap_events. reap_cases;
    cbn; unfold add_events; cbn; rewrite <- ?app_assoc; reflexivity.
Qed.

Lemma Reap_outcome (timeout : Z) (e : ReapEnv) (s : State) :
  snd (Reap timeout e s) = Returned (env_urb e) \/
  exists ex, snd (Reap timeout e s) = Threw ex.
Proof. reap_cases; cbn; eauto. Qed.

Lemma Reap_events_reap (timeout : Z) (e : ReapEnv) (fd : Z) :
  Forall reap_event (Reap_events timeout e fd).
Proof.
  unfold Reap_events. reap_cases; cbn; repeat constructor.
Qed.

Lemma Reap_returns_urb (timeout : Z) (e : ReapEnv) (k : Z) :
  Reap_returns timeout e k -> k = env_urb e.
Proof.
  intros H. specialize (H (mkState 0 0 ∅ [])).
  destruct (Reap_outcome timeout e (mkState 0 0 ∅ [])) as [Hr|[ex Hr]];
    rewrite Hr in H; congruence.
Qed.

(** ** The reap loop of [Submit] *)

Lemma wf_urbs_empty : wf_urbs ∅.
Proof. intros k v H. now rewrite lookup_empty in H. Qed.

Lemma wf_urbs_delete (m : gmap Z Z) (k : Z) :
  wf_urbs m -> wf_urbs (delete k m).
Proof.
  intros Hwf k' v H. destruct (decide (k = k')) as [->|Hne].
  - now rewrite lookup_delete_eq in H.
  - rewrite lookup_delete_ne in H by assumption. now apply Hwf.
Qed.

Lemma wf_urbs_insert (m : gmap Z Z) (k : Z) :
  wf_urbs m -> wf_urbs (<[k := k]> m).
Proof.
  intros Hwf k' v H. destruct (decide (k = k')) as [->|Hne].
  - rewrite lookup_insert_eq in H. congruence.
  - rewrite lookup_insert_ne in H by assumption. now apply Hwf.
Qed.

Lemma this_completed (e : ReapEnv) (urb : Urb) : this (completed e urb) = this urb.
Proof. unfold completed. now destruct (env_urb e =? this urb). Qed.

Lemma Fd_completed (e : ReapEnv) (urb : Urb) : Fd (completed e urb) = Fd urb.
Proof. unfold completed. now destruct (env_urb e =? this urb). Qed.

Lemma completed_other (e : ReapEnv) (urb : Urb) :
  env_urb e <> this urb -> completed e urb = urb.
Proof.
  intros Hne. unfold completed.
  destruct (Z.eqb_spec (env_urb e) (this urb)); [contradiction|reflexivity].
Qed.

(** One iteration of the loop, by the answer of [Reap]. *)
Lemma Submit_loop_step (urb : Urb) (timeout : Z) (e : ReapEnv)
    (rest : list ReapEnv) (s : State) :
  Submit_loop urb timeout (e :: rest) s =
  match Reap timeout e s with
  | (s1, Returned k) =>
      match _urbs s1 !! k with
      | None =>
          Submit_loop (completed e urb) timeout rest
            (add_events [EvError (got_unknown_urb k)] s1)
      | Some v =>
          if v =? this urb
          then (set_urbs (delete k (_urbs s1)) s1, Returned (completed e urb))
          else Submit_loop (completed e urb) timeout rest
                 (set_urbs (delete k (_urbs s1)) s1)
      end
  | (s1, Threw ex) => (s1, Threw ex)
  | (s1, Undefined) => (s1, Undefined)
  | (s1, Waiting) => (s1, Waiting)
  end.
Proof.
  cbn [Submit_loop]. unfold bind at 1.
  destruct (Reap timeout e s) as [s1 [k|ex| |]]; try reflexivity.
  unfold bind, urbs_find, urbs_erase, error, emit, ret.
  rewrite this_completed.
  destruct (_urbs s1 !! k) as [v|]; [|reflexivity].
  cbn. now destruct (v =? this urb).
Qed.

Lemma Reap_pair (timeout : Z) (e : ReapEnv) (s : State) :
  Reap timeout e s =
  (add_events (Reap_events timeout e (_fd s)) s, snd (Reap timeout e s)).
Proof. rewrite <- Reap_state. now destruct (Reap timeout e s). Qed.

Lemma try_catch_step {A} (m m' : M A) (h : exn -> M A) (s s' : State) :
  m s = m' s' -> try_catch m h s = try_catch m' h s'.
Proof. unfold try_catch. now intros ->. Qed.

(** C4: one iteration of the reap loop of [Submit], when [Reap] returns the
    identity [k].  If [k] is not in the pending table, the line "got unknown
    urb" is logged and the loop goes on with the table unchanged.  If [k] is
    in the table it is erased; when its request is not the one of this call
    nothing is logged and the loop goes on, and when it is, the loop ends and
    the call returns without entering a handler. *)
Theorem Submit_reap_iteration (urb0 urb : Urb) (timeout : Z) (env : SubmitEnv)
    (e : ReapEnv) (rest : list ReapEnv) (s : State) (k : Z) :
  Reap_returns timeout e k ->
  let s1 := add_events (Reap_events timeout e (_fd s)) s in
  let call u reaps := try_catch (Submit_loop u timeout reaps) (Submit_catch urb0 env) in
  match _urbs s !! k with
  | None =>
      call urb (e :: rest) s =
      call (completed e urb) rest (add_events [EvError (got_unknown_urb k)] s1)
  | Some completedUrb =>
      if decide (completedUrb = this urb) then
        call urb (e :: rest) s =
        (set_urbs (delete k (_urbs s)) s1, Returned (completed e urb))
      else
        call urb (e :: rest) s =
        call (completed e urb) rest (set_urbs (delete k (_urbs s)) s1)
  end.
Proof.
  intros Hk s1 call. subst call. cbn beta.
  assert (Hstep := Submit_loop_step urb timeout e rest s).
  rewrite Reap_pair, (Hk s) in Hstep. fold s1 in Hstep.
  change (_urbs s1) with (_urbs s) in Hstep.
  destruct (_urbs s !! k) as [v|].
  - destruct (decide (v = this urb)) as [->|Hne].
    + rewrite Z.eqb_refl in Hstep. unfold try_catch. now rewrite Hstep.
    + destruct (Z.eqb_spec v (this urb)) as [|_]; [contradiction|].
      now apply try_catch_step.
  - now apply try_catch_step.
Qed.

Lemma reap_event_loop_event (ev : Event) : reap_event ev -> loop_event ev.
Proof. destruct ev as [fd []| | | [] | | |]; cbn; tauto. Qed.

Lemma loop_events_quiet (evs : list Event) :
  Forall loop_event evs ->
  discards evs = [] /\ submitted evs = [] /\ written evs = [] /\ perrors evs = [].
Proof.
  induction 1 as [|ev evs Hev _ (IH1 & IH2 & IH3 & IH4)]; [now repeat split|].
  unfold discards, submitted, written, perrors in *. cbn.
  rewrite IH1, IH2, IH3, IH4.
  destruct ev as [fd []| | | | | |]; cbn in Hev; try contradiction;
    now repeat split.
Qed.

Lemma loop_post_step (urb urb1 : Urb) (s s1 s' : State) (o : Outcome Urb)
    (evs : list Event) :
  this urb1 = this urb -> Fd urb1 = Fd urb ->
  _fd s1 = _fd s -> _capabilities s1 = _capabilities s ->
  trace s1 = trace s ++ evs -> Forall loop_event evs ->
  loop_post urb1 s1 s' o -> loop_post urb s s' o.
Proof.
  intros Hthis HFd Hfd Hcap Htr Hevs [Hwf Hfd' Hcap' (evs' & Htr' & Hevs') Hent].
  constructor; try congruence; try assumption.
  - exists (evs ++ evs'). split.
    + now rewrite Htr', Htr, app_assoc.
    + now apply Forall_app.
  - rewrite <- Hthis, <- HFd. exact Hent.
Qed.

Lemma Submit_loop_post (timeout : Z) (reaps : list ReapEnv) :
  forall (urb : Urb) (s : State),
    wf_urbs (_urbs s) -> _urbs s !! this urb = Some (this urb) ->
    loop_post urb s (fst (Submit_loop urb timeout reaps s))
      (snd (Submit_loop urb timeout reaps s)).
Proof.
  induction reaps as [|e rest IH]; intros urb s Hwf Hown.
  - cbn. constructor; try reflexivity; try assumption.
    exists []. split; [now rewrite app_nil_r|constructor].
  - rewrite Submit_loop_step, Reap_pair.
    set (s1 := add_events (Reap_events timeout e (_fd s)) s).
    assert (Hs1 : trace s1 = trace s ++ Reap_events timeout e (_fd s)) by reflexivity.
    assert (Hr : Forall loop_event (Reap_events timeout e (_fd s))).
    { eapply Forall_impl; [apply Reap_events_reap|apply reap_event_loop_event]. }
    destruct (Reap_outcome timeout e s) as [Hret|[ex Hex]].
    + rewrite Hret. change (_urbs s1) with (_urbs s).
      destruct (_urbs s !! env_urb e) as [v|] eqn:Hk.
      * assert (v = env_urb e) by (now apply Hwf). subst v.
        destruct (Z.eqb_spec (env_urb e) (this urb)) as [Heq|Hne].
        -- cbn [fst snd]. constructor; cbn; try reflexivity.
           ++ now apply wf_urbs_delete.
           ++ eauto.
           ++ rewrite Heq, lookup_delete_eq, this_completed, Fd_completed.
              now repeat split.
        -- eapply (loop_post_step urb (completed e urb) s
                     (set_urbs (delete (env_urb e) (_urbs s)) s1));
             [apply this_completed|apply Fd_completed|reflexivity|reflexivity
             |exact Hs1|exact Hr|].
           apply IH; cbn.
           ++ now apply wf_urbs_delete.
           ++ rewrite this_completed, lookup_delete_ne by assumption. exact Hown.
      * eapply (loop_post_step urb (completed e urb) s
                  (add_events [EvError (got_unknown_urb (env_urb e))] s1)
                  _ _ (Reap_events timeout e (_fd s) ++ [EvError (got_unknown_urb (env_urb e))]));
          [apply this_completed|apply Fd_completed|reflexivity|reflexivity
          | |apply Forall_app; split; [exact Hr|repeat constructor]|].
        -- cbn. now rewrite app_assoc.
        -- apply IH; cbn; [assumption|]. now rewrite this_completed.
    + rewrite Hex. cbn [fst snd]. constructor; cbn; try reflexivity; try assumption.
      eauto.
Qed.

Lemma Submit_loop_skip (timeout : Z) (pre rest : list ReapEnv) :
  forall (urb : Urb) (s : State),
    wf_urbs (_urbs s) -> _urbs s !! this urb = Some (this urb) ->
    Forall (other_completion timeout (this urb)) pre ->
    exists s1,
      Submit_loop urb timeout (pre ++ rest) s = Submit_loop urb timeout rest s1 /\
      wf_urbs (_urbs s1) /\ _urbs s1 !! this urb = Some (this urb).
Proof.
  induction pre as [|r pre IH]; intros urb s Hwf Hown Hpre.
  - exists s. now repeat split.
  - apply Forall_cons in Hpre as [(k & Hk & Hne) Hpre].
    assert (Hku := Reap_returns_urb _ _ _ Hk). subst k.
    cbn [app]. rewrite Submit_loop_step, Reap_pair, (Hk s).
    rewrite completed_other by assumption.
    set (s1 := add_events (Reap_events timeout r (_fd s)) s).
    change (_urbs s1) with (_urbs s).
    destruct (_urbs s !! env_urb r) as [v|] eqn:Hlk.
    + assert (v = env_urb r) by (now apply Hwf). subst v.
      destruct (Z.eqb_spec (env_urb r) (this urb)) as [|_]; [contradiction|].
      apply IH; cbn; [now apply wf_urbs_delete| |assumption].
      now rewrite lookup_delete_ne.
    + apply IH; cbn; assumption.
Qed.

Lemma Submit_loop_throws (urb : Urb) (timeout : Z) (t : ReapEnv)
    (rest : list ReapEnv) (ex : exn) (s : State) :
  Reap_throws timeout t ex ->
  Submit_loop urb timeout (t :: rest) s =
  (add_events (Reap_events timeout t (_fd s)) s, Threw ex).
Proof. intros Ht. now rewrite Submit_loop_step, Reap_pair, (Ht s). Qed.

Lemma Submit_loop_own (urb : Urb) (timeout : Z) (last : ReapEnv)
    (rest : list ReapEnv) (s : State) :
  _urbs s !! this urb = Some (this urb) ->
  Reap_returns timeout last (this urb) ->
  Submit_loop urb timeout (last :: rest) s =
  (set_urbs (delete (this urb) (_urbs s))
     (add_events (Reap_events timeout last (_fd s)) s),
   Returned (completed last urb)).
Proof.
  intros Hown Hlast. rewrite Submit_loop_step, Reap_pair, (Hlast s).
  cbn [_urbs add_events]. rewrite Hown. now rewrite Z.eqb_refl.
Qed.

(** ** [Submit] *)

(** The handlers: one cancellation, then the exception they caught. *)
Lemma Submit_catch_spec (urb : Urb) (e : SubmitEnv) (ex : exn) (s : State) :
  exists evs,
    Submit_catch urb e ex s = (add_events evs s, Threw ex) /\
    discards evs = [this urb] /\ submitted evs = [] /\ written evs = [] /\
    perrors evs =
      (if env_discard e =? 0 then [] else ["ioctl(USBDEVFS_DISCARDURB)"%string]).
Proof.
  unfold Submit_catch, Urb_Discard, is_std_exception, bind, error, perror,
    emit, throw, ret.
  destruct (is_TimeoutException ex); destruct (env_discard e =? 0); cbn;
    rewrite ?add_events_add_events; eexists; (split; [reflexivity|]);
    now repeat split.
Qed.

Lemma registered_wf (urb : Urb) (m : gmap Z Z) :
  wf_urbs m -> wf_urbs (registered urb m).
Proof.
  intros Hwf. unfold registered. destruct (m !! this urb); [assumption|].
  now apply wf_urbs_insert.
Qed.

Lemma registered_lookup (urb : Urb) (m : gmap Z Z) :
  wf_urbs m -> registered urb m !! this urb = Some (this urb).
Proof.
  intros Hwf. unfold registered. destruct (m !! this urb) as [v|] eqn:H.
  - rewrite H. f_equal. now apply Hwf.
  - apply lookup_insert_eq.
Qed.

Lemma Submit_refused (urb : Urb) (timeout : Z) (e : SubmitEnv) (s : State) :
  (rv (env_submit e) <? 0) = true ->
  exists ex, Submit urb timeout e s = (add_events [submit_event urb] s, Threw ex).
Proof.
  intros Hrv. unfold Submit, Urb_Submit, IOCTL, bind, emit, throw. rewrite Hrv.
  destruct (errno (env_submit e) =? EBUSY); [eauto|].
  destruct (errno (env_submit e) =? ENODEV); eauto.
Qed.

Lemma Submit_accepted (urb : Urb) (timeout : Z) (e : SubmitEnv) (s : State) :
  (rv (env_submit e) <? 0) = false ->
  Submit urb timeout e s =
  try_catch (Submit_loop urb timeout (env_reaps e)) (Submit_catch urb e)
    (set_urbs (registered urb (_urbs s)) (add_events [submit_event urb] s)).
Proof.
  intros Hrv. unfold Submit, Urb_Submit, IOCTL, bind, emit, ret, urbs_insert.
  now rewrite Hrv.
Qed.

Lemma Submit_post (urb : Urb) (timeout : Z) (e : SubmitEnv) (s : State) :
  wf_urbs (_urbs s) ->
  let s' := fst (Submit urb timeout e s) in
  let o := snd (Submit urb timeout e s) in
  wf_urbs (_urbs s') /\ _fd s' = _fd s /\ _capabilities s' = _capabilities s /\
  exists evs,
    trace s' = trace s ++ submit_event urb :: evs /\
    submitted evs = [] /\ written evs = [] /\
    Submit_ends urb e s s' evs o.
Proof.
  intros Hwf. cbn zeta. destruct (rv (env_submit e) <? 0) eqn:Hrv.
  - destruct (Submit_refused urb timeout e s Hrv) as [ex ->]. cbn.
    repeat split; try assumption. exists []. unfold Submit_ends.
    rewrite Hrv. now repeat split.
  - rewrite (Submit_accepted urb timeout e s Hrv).
    set (s0 := set_urbs (registered urb (_urbs s)) (add_events [submit_event urb] s)).
    assert (Hpost := Submit_loop_post timeout (env_reaps e) urb s0
                       (registered_wf urb _ Hwf) (registered_lookup urb _ Hwf)).
    unfold try_catch.
    destruct (Submit_loop urb timeout (env_reaps e) s0) as [s1 o] eqn:Hloop.
    cbn [fst snd] in Hpost.
    destruct Hpost as [Hwf1 Hfd1 Hcap1 (evs & Htr & Hevs) Hent].
    destruct (loop_events_quiet evs Hevs) as (Hd & Hs & Hw & Hp).
    assert (Htr0 : trace s1 = trace s ++ submit_event urb :: evs).
    { rewrite Htr. cbn. now rewrite <- app_assoc. }
    destruct o as [urb'|ex| |]; cbn [fst snd].
    + repeat split; try assumption. exists evs. unfold Submit_ends.
      destruct Hent as (? & ? & ?). now repeat split.
    + destruct (Submit_catch_spec urb e ex s1) as (hevs & -> & Hhd & Hhs & Hhw & Hhp).
      cbn [fst snd _urbs _fd _capabilities add_events trace].
      repeat split; try assumption.
      exists (evs ++ hevs). unfold Submit_ends, discards, submitted, written, perrors in *.
      rewrite Hrv, Htr0, !omap_app, Hd, Hs, Hw, Hp, Hhd, Hhs, Hhw, Hhp.
      repeat split; try assumption. now rewrite <- app_assoc.
    + contradiction.
    + repeat split; try assumption. exists evs. unfold Submit_ends.
      now repeat split.
Qed.

Lemma Submit_completes (urb : Urb) (timeout : Z) (e : SubmitEnv)
    (last : ReapEnv) (s : State) :
  wf_urbs (_urbs s) -> completes timeout (this urb) e last ->
  snd (Submit urb timeout e s) = Returned (completed last urb).
Proof.
  intros Hwf (Hrv & pre & rest & Hreaps & Hpre & Hlast).
  rewrite (Submit_accepted _ _ _ _ Hrv), Hreaps.
  set (s0 := set_urbs _ _).
  destruct (Submit_loop_skip timeout pre (last :: rest) urb s0)
    as (s1 & Heq & Hwf1 & Hown1);
    [now apply registered_wf|now apply registered_lookup|assumption|].
  unfold try_catch. rewrite Heq, (Submit_loop_own _ _ _ _ _ Hown1 Hlast).
  reflexivity.
Qed.

Lemma Submit_throws (urb : Urb) (timeout : Z) (e : SubmitEnv)
    (pre : list ReapEnv) (t : ReapEnv) (rest : list ReapEnv) (ex : exn)
    (s : State) :
  wf_urbs (_urbs s) ->
  (rv (env_submit e) <? 0) = false ->
  env_reaps e = pre ++ t :: rest ->
  Forall (other_completion timeout (this urb)) pre ->
  Reap_throws timeout t ex ->
  snd (Submit urb timeout e s) = Threw ex.
Proof.
  intros Hwf Hrv Hreaps Hpre Ht.
  rewrite (Submit_accepted _ _ _ _ Hrv), Hreaps.
  set (s0 := set_urbs _ _).
  destruct (Submit_loop_skip timeout pre (t :: rest) urb s0)
    as (s1 & Heq & Hwf1 & Hown1);
    [now apply registered_wf|now apply registered_lookup|assumption|].
  unfold try_catch. rewrite Heq, (Submit_loop_throws _ _ _ _ _ _ Ht).
  destruct (Submit_catch_spec urb e ex
              (add_events (Reap_events timeout t (_fd s1)) s1)) as (evs & -> & _).
  reflexivity.
Qed.

Lemma since_Submit (urb : Urb) (s s' : State) (evs : list Event) :
  trace s' = trace s ++ submit_event urb :: evs ->
  discards (since s s') = discards evs /\
  perrors (since s s') = perrors evs /\
  written (since s s') = written evs /\
  submitted (since s s') =
    (KernelUrb urb, take (Z.to_nat (buffer_length (KernelUrb urb))) (Buffer urb))
      :: submitted evs.
Proof. intros H. rewrite (since_app _ _ _ H). now repeat split. Qed.

(** ** The sample answers *)

Lemma reap_of_returns (timeout k : Z) (data : list byte) :
  Reap_returns timeout (reap_of k data) k.
Proof. intros s. reflexivity. Qed.

Lemma reap_nothing_throws (timeout : Z) :
  Reap_throws timeout reap_nothing (TimeoutException "timeout reaping usb urb").
Proof. intros s. unfold Reap. cbn. now destruct (timeout >? 0). Qed.

(** C4 at a table that holds the requests 100 (the call's own) and 200: an
    unknown completion 55 is logged, and the loop goes on. *)
Lemma Submit_reap_iteration_witness :
  let s := set_urbs (<[100 := 100]> (<[200 := 200]> ∅)) sample_state in
  let e := reap_of 55 [] in
  let env := mkSubmitEnv sys_ok [] 0 in
  let s1 := add_events (Reap_events 1000 e (_fd s)) s in
  let call u reaps :=
    try_catch (Submit_loop u 1000 reaps) (Submit_catch sample_urb env) in
  call sample_urb [e; reap_of 200 []; reap_of 100 []] s =
  call (completed e sample_urb) [reap_of 200 []; reap_of 100 []]
    (add_events [EvError (got_unknown_urb 55)] s1).
Proof.
  exact (Submit_reap_iteration sample_urb sample_urb 1000
           (mkSubmitEnv sys_ok [] 0) (reap_of 55 [])
           [reap_of 200 []; reap_of 100 []]
           (set_urbs (<[100 := 100]> (<[200 := 200]> ∅)) sample_state) 55
           (reap_of_returns 1000 55 [])).
Defined.

(** C1, as stated, fails on the failure paths: a call whose reap times out
    throws [TimeoutException] and leaves the entry of its request in the
    pending table. *)
Lemma Submit_timeout_leaves_entry :
  let r := Submit sample_urb 1000 (mkSubmitEnv sys_ok [reap_nothing] 0) sample_state in
  snd r = Threw (TimeoutException "timeout reaping usb urb") /\
  _urbs sample_state !! this sample_urb = None /\
  _urbs (fst r) !! this sample_urb = Some (this sample_urb).
Proof. cbv zeta. now vm_compute. Qed.

(** C1 (amended): started on a table of [(&urb->KernelUrb, urb)] pairs,
    [Submit] holds the entry of its request from the moment the submission is
    accepted until a reap returns that request, and at each point the table,
    a map, has one entry for it at most.  When the call returns the table has
    no entry for the request.  When the submission itself is refused the
    table is as it was.  When the call throws out of the reap loop
    ([TimeoutException] or another failure of [Reap]) the entry is still in
    the table; so it is while the call is waiting inside the loop. *)
Theorem Submit_pending_entry (urb : Urb) (timeout : Z) (e : SubmitEnv) (s : State) :
  wf_urbs (_urbs s) ->
  let s' := fst (Submit urb timeout e s) in
  match snd (Submit urb timeout e s) with
  | Returned _ => _urbs s' !! this urb = None
  | Threw _ =>
      if rv (env_submit e) <? 0 then _urbs s' = _urbs s
      else _urbs s' !! this urb = Some (this urb)
  | Waiting => _urbs s' !! this urb = Some (this urb)
  | Undefined => False
  end.
Proof.
  intros Hwf.
  destruct (Submit_post urb timeout e s Hwf) as (_ & _ & _ & evs & _ & _ & _ & Hend).
  cbn zeta. unfold Submit_ends in Hend.
  destruct (snd (Submit urb timeout e s)).
  - tauto.
  - destruct (rv (env_submit e) <? 0); tauto.
  - assumption.
  - tauto.
Qed.

Lemma Submit_pending_entry_witness :
  _urbs (fst (Submit sample_urb 1000
                (mkSubmitEnv sys_ok [reap_of 55 []; reap_of 100 [x01; x02]] 0)
                sample_state)) !! this sample_urb = None.
Proof.
  exact (Submit_pending_entry sample_urb 1000
           (mkSubmitEnv sys_ok [reap_of 55 []; reap_of 100 [x01; x02]] 0)
           sample_state wf_urbs_empty).
Defined.

(** The entry that a timed-out call leaves behind goes when a later call
    reaps the cancelled request: that call erases it and keeps waiting for its
    own. *)
Example stale_entry_reaped_later :
  let s1 := fst (Submit sample_urb 1000 (mkSubmitEnv sys_ok [reap_nothing] 0)
                   sample_state) in
  let urb2 := mkUrb 200 3 4 [x00; x00; x00; x00]
                (mk_usbdevfs_urb USBDEVFS_URB_TYPE_BULK 129 0 4 0) in
  let r := Submit urb2 1000
             (mkSubmitEnv sys_ok [reap_of 100 []; reap_of 200 []] 0) s1 in
  _urbs s1 !! 100 = Some 100 /\
  snd r = Returned urb2 /\
  _urbs (fst r) !! 100 = None /\ _urbs (fst r) !! 200 = None.
Proof. cbv zeta. now vm_compute. Qed.

(** C5: a call of [Submit] whose submission was accepted and which, after
    completions of other requests only, finds [Reap] throwing
    [TimeoutException], throws that [TimeoutException]; it has issued
    [USBDEVFS_DISCARDURB] for its request exactly once; and whatever that
    [ioctl] answers the exception is the same, a nonzero answer adding one
    [perror] line. *)
Theorem Submit_timeout (urb : Urb) (timeout : Z) (e : SubmitEnv)
    (pre : list ReapEnv) (t : ReapEnv) (rest : list ReapEnv) (what : string)
    (s : State) :
  wf_urbs (_urbs s) ->
  (rv (env_submit e) <? 0) = false ->
  env_reaps e = pre ++ t :: rest ->
  Forall (other_completion timeout (this urb)) pre ->
  Reap_throws timeout t (TimeoutException what) ->
  let s' := fst (Submit urb timeout e s) in
  snd (Submit urb timeout e s) = Threw (TimeoutException what) /\
  discards (since s s') = [this urb] /\
  perrors (since s s') =
    (if env_discard e =? 0 then [] else ["ioctl(USBDEVFS_DISCARDURB)"%string]).
Proof.
  intros Hwf Hrv Hreaps Hpre Ht. cbn zeta.
  assert (Hout := Submit_throws urb timeout e pre t rest _ s Hwf Hrv Hreaps Hpre Ht).
  destruct (Submit_post urb timeout e s Hwf) as (_ & _ & _ & evs & Htr & _ & _ & Hend).
  cbn zeta in Htr, Hend. unfold Submit_ends in Hend. rewrite Hout, Hrv in Hend.
  destruct Hend as (_ & Hd & Hp).
  destruct (since_Submit urb s _ evs Htr) as (-> & -> & _).
  now repeat split.
Qed.

Lemma Submit_timeout_witness :
  let e := mkSubmitEnv sys_ok [reap_of 55 []; reap_nothing; reap_of 100 []] (-1) in
  let s' := fst (Submit sample_urb 1000 e sample_state) in
  snd (Submit sample_urb 1000 e sample_state)
  = Threw (TimeoutException "timeout reaping usb urb") /\
  discards (since sample_state s') = [this sample_urb] /\
  perrors (since sample_state s') = ["ioctl(USBDEVFS_DISCARDURB)"%string].
Proof.
  apply (Submit_timeout sample_urb 1000
           (mkSubmitEnv sys_ok [reap_of 55 []; reap_nothing; reap_of 100 []] (-1))
           [reap_of 55 []] reap_nothing [reap_of 100 []]
           "timeout reaping usb urb" sample_state).
  - exact wf_urbs_empty.
  - reflexivity.
  - reflexivity.
  - constructor; [|constructor]. exists 55. split; [apply reap_of_returns|].
    vm_compute. discriminate.
  - apply reap_nothing_throws.
Defined.

(** ** Flags of a request *)

Lemma has_flag_lor_same (f F : Z) : F <> 0 -> has_flag (Z.lor f F) F = true.
Proof.
  intros HF. unfold has_flag.
  rewrite Z.land_lor_distr_l, Z.land_diag.
  destruct (Z.eqb_spec (Z.lor (Z.land f F) F) 0) as [H0|]; [|reflexivity].
  apply Z.lor_eq_0_iff in H0. tauto.
Qed.

Lemma has_flag_clear_same (f F : Z) : has_flag (Z.land f (Z.lnot F)) F = false.
Proof.
  unfold has_flag.
  rewrite <- Z.land_assoc, (Z.land_comm (Z.lnot F)), Z.land_lnot_diag, Z.land_0_r.
  reflexivity.
Qed.

Lemma has_flag_lor_other (f G F : Z) :
  Z.land G F = 0 -> has_flag (Z.lor f G) F = has_flag f F.
Proof.
  intros H. unfold has_flag. now rewrite Z.land_lor_distr_l, H, Z.lor_0_r.
Qed.

Lemma has_flag_clear_other (f G F : Z) :
  Z.land G F = 0 -> has_flag (Z.land f (Z.lnot G)) F = has_flag f F.
Proof.
  intros H. unfold has_flag. rewrite <- Z.land_assoc.
  replace (Z.land (Z.lnot G) F) with F; [reflexivity|].
  rewrite <- (Z.land_m1_r F) at 1. rewrite <- (Z.lor_lnot_diag G).
  rewrite Z.land_lor_distr_r, (Z.land_comm F G), H, Z.lor_0_l.
  apply Z.land_comm.
Qed.

Lemma zero_packet_SetZeroPacketFlag (zero : bool) (urb : Urb) :
  zero_packet (KernelUrb (Urb_SetZeroPacketFlag zero urb)) = zero.
Proof.
  unfold zero_packet, Urb_SetZeroPacketFlag, Urb_SetFlag. destruct zero; cbn.
  - now apply has_flag_lor_same.
  - apply has_flag_clear_same.
Qed.

Lemma zero_packet_SetContinuationFlag (continuation : bool) (urb : Urb) :
  zero_packet (KernelUrb (Urb_SetContinuationFlag continuation urb))
  = zero_packet (KernelUrb urb).
Proof.
  unfold zero_packet, Urb_SetContinuationFlag, Urb_SetFlag.
  destruct continuation; cbn.
  - now apply has_flag_lor_other.
  - now apply has_flag_clear_other.
Qed.

(** ** [WriteBulk] *)

Lemma WriteBulk_loop_step (urb : Urb) (transferSize : Z) (inputStream : list byte)
    (continuation : bool) (timeout : Z) (e : SubmitEnv) (envs : list SubmitEnv)
    (s : State) :
  WriteBulk_loop urb transferSize inputStream continuation timeout (e :: envs) s =
  let got := take (Z.to_nat transferSize) inputStream in
  let rest := drop (Z.to_nat transferSize) inputStream in
  let continuation' :=
    if has_capability (_capabilities s) USBDEVFS_CAP_BULK_CONTINUATION
    then true else continuation in
  match Submit (WriteBulk_urb (_capabilities s) continuation transferSize got urb)
          timeout e s with
  | (s', Returned urb') =>
      if Z.of_nat (length got) =? transferSize
      then WriteBulk_loop urb' transferSize rest continuation' timeout envs s'
      else (s', Returned rest)
  | (s', Threw ex) => (s', Threw ex)
  | (s', Undefined) => (s', Undefined)
  | (s', Waiting) => (s', Waiting)
  end.
Proof.
  cbn [WriteBulk_loop]. unfold Urb_Send, IObjectInputStream_Read, WriteBulk_urb.
  unfold bind at 1. unfold get_capabilities. cbn zeta.
  destruct (has_capability (_capabilities s) USBDEVFS_CAP_ZERO_PACKET);
    destruct (has_capability (_capabilities s) USBDEVFS_CAP_BULK_CONTINUATION);
    unfold bind;
    match goal with
    | |- context [Submit ?u timeout e s] =>
        destruct (Submit u timeout e s) as [s' [urb'|ex| |]]
    end; try reflexivity;
    now destruct (Z.of_nat (length (take (Z.to_nat transferSize) inputStream))
                  =? transferSize).
Qed.

Lemma WriteBulk_urb_facts (capabilities : Z) (continuation : bool)
    (transferSize : Z) (got : list byte) (urb : Urb) :
  let urb' := WriteBulk_urb capabilities continuation transferSize got urb in
  this urb' = this urb /\ Fd urb' = Fd urb /\
  Buffer urb' = overwrite got (Buffer urb) /\
  buffer_length (KernelUrb urb') = Z.of_nat (length got) /\
  zero_packet (KernelUrb urb') =
    (if has_capability capabilities USBDEVFS_CAP_ZERO_PACKET
     then negb (Z.of_nat (length got) =? transferSize)
     else zero_packet (KernelUrb urb)).
Proof.
  unfold WriteBulk_urb. cbn zeta.
  destruct (has_capability capabilities USBDEVFS_CAP_BULK_CONTINUATION).
  - rewrite zero_packet_SetContinuationFlag.
    destruct (has_capability capabilities USBDEVFS_CAP_ZERO_PACKET).
    + rewrite zero_packet_SetZeroPacketFlag.
      unfold Urb_SetContinuationFlag, Urb_SetZeroPacketFlag, Urb_SetFlag.
      destruct continuation, (negb _); cbn; now repeat split.
    + unfold Urb_SetContinuationFlag, Urb_SetFlag.
      destruct continuation; cbn; now repeat split.
  - destruct (has_capability capabilities USBDEVFS_CAP_ZERO_PACKET).
    + rewrite zero_packet_SetZeroPacketFlag.
      unfold Urb_SetZeroPacketFlag, Urb_SetFlag.
      destruct (negb _); cbn; now repeat split.
    + cbn. now repeat split.
Qed.

Lemma completed_facts (e : ReapEnv) (urb : Urb) :
  this (completed e urb) = this urb /\ Fd (completed e urb) = Fd urb /\
  length (Buffer (completed e urb)) = length (Buffer urb) /\
  flags (KernelUrb (completed e urb)) = flags (KernelUrb urb).
Proof.
  unfold completed. destruct (env_urb e =? this urb); cbn; [|now repeat split].
  rewrite length_overwrite. now repeat split.
Qed.

Lemma take_overwrite (d buf : ByteArray) :
  (length d <= length buf)%nat -> take (length d) (overwrite d buf) = d.
Proof.
  intros Hle. unfold overwrite.
  rewrite (take_ge d (length buf)) by assumption.
  rewrite take_app_length. reflexivity.
Qed.

Lemma Submit_returns_post (urb : Urb) (timeout : Z) (e : SubmitEnv)
    (last : ReapEnv) (s : State) :
  wf_urbs (_urbs s) -> completes timeout (this urb) e last ->
  exists s' evs,
    Submit urb timeout e s = (s', Returned (completed last urb)) /\
    wf_urbs (_urbs s') /\ _fd s' = _fd s /\ _capabilities s' = _capabilities s /\
    trace s' = trace s ++ submit_event urb :: evs /\
    submitted evs = [] /\ written evs = [] /\ discards evs = [].
Proof.
  intros Hwf Hc.
  assert (Hout := Submit_completes urb timeout e last s Hwf Hc).
  destruct (Submit_post urb timeout e s Hwf)
    as (Hwf' & Hfd & Hcap & evs & Htr & Hs & Hw & Hend).
  cbn zeta in *. rewrite Hout in Hend. unfold Submit_ends in Hend.
  destruct (Submit urb timeout e s) as [s' o]. cbn [fst snd] in *. subst o.
  exists s', evs. intuition.
Qed.

Lemma WriteBulk_loop_spec (timeout own : Z) (n : nat) :
  (0 < n)%nat ->
  forall (k : nat) (urb : Urb) (stream : list byte) (continuation : bool)
         (s : State) (used extra : list SubmitEnv),
    this urb = own -> length (Buffer urb) = n ->
    zero_packet (KernelUrb urb) = false ->
    wf_urbs (_urbs s) ->
    length stream = (k * n)%nat -> length used = S k ->
    Forall (fun e => exists last, completes timeout own e last) used ->
    exists s' evs,
      WriteBulk_loop urb (Z.of_nat n) stream continuation timeout (used ++ extra) s
      = (s', Returned []) /\
      wf_urbs (_urbs s') /\
      trace s' = trace s ++ evs /\
      written evs = [] /\ discards evs = [] /\
      map (fun p => buffer_length (fst p)) (submitted evs)
      = replicate k (Z.of_nat n) ++ [0] /\
      concat (map snd (submitted evs)) = stream /\
      map (fun p => zero_packet (fst p)) (submitted evs)
      = replicate k false
          ++ [has_capability (_capabilities s) USBDEVFS_CAP_ZERO_PACKET].
Proof.
  intros Hn. induction k as [|k IH];
    intros urb stream continuation s used extra Hthis Hbuf Hzero Hwf Hlen Hused Hall.
  - destruct used as [|e [|? ?]]; try discriminate.
    apply Forall_cons in Hall as [(last & Hc) _].
    apply length_zero_iff_nil in Hlen. subst stream.
    cbn [app]. rewrite WriteBulk_loop_step. cbn zeta.
    rewrite take_nil, drop_nil.
    set (urb3 := WriteBulk_urb (_capabilities s) continuation (Z.of_nat n) [] urb).
    destruct (WriteBulk_urb_facts (_capabilities s) continuation (Z.of_nat n) [] urb)
      as (H3this & _ & H3buf & H3len & H3zero). fold urb3 in H3this, H3buf, H3len, H3zero.
    destruct (Submit_returns_post urb3 timeout e last s Hwf)
      as (s' & evs & -> & Hwf' & _ & _ & Htr & Hs & Hw & Hd); [now rewrite H3this, Hthis|].
    cbn [length] in *.
    destruct (Z.eqb_spec (Z.of_nat 0) (Z.of_nat n)) as [Heq|_]; [lia|].
    exists s', (submit_event urb3 :: evs).
    unfold submitted, written, discards in *. cbn.
    rewrite Hs, Hw, Hd, H3len, H3zero. cbn.
    repeat split; try assumption.
    rewrite Hzero. now destruct (has_capability _ _).
  - destruct used as [|e used]; [discriminate|].
    apply Forall_cons in Hall as [(last & Hc) Hall].
    cbn [app]. rewrite WriteBulk_loop_step. cbn zeta. rewrite Nat2Z.id.
    set (got := take n stream).
    assert (Hgot : length got = n) by (subst got; rewrite length_take; lia).
    set (urb3 := WriteBulk_urb (_capabilities s) continuation (Z.of_nat n) got urb).
    destruct (WriteBulk_urb_facts (_capabilities s) continuation (Z.of_nat n) got urb)
      as (H3this & _ & H3buf & H3len & H3zero). fold urb3 in H3this, H3buf, H3len, H3zero.
    destruct (Submit_returns_post urb3 timeout e last s Hwf)
      as (s' & evs & -> & Hwf' & _ & Hcap & Htr & Hs & Hw & Hd); [now rewrite H3this, Hthis|].
    rewrite Hgot, Z.eqb_refl in *.
    destruct (completed_facts last urb3) as (H4this & _ & H4buf & H4flags).
    destruct (IH (completed last urb3) (drop n stream)
                (if has_capability (_capabilities s) USBDEVFS_CAP_BULK_CONTINUATION
                 then true else continuation) s' used extra)
      as (s'' & evs' & -> & Hwf'' & Htr' & Hw' & Hd' & Hlens & Hcat & Hz).
    { now rewrite H4this, H3this. }
    { now rewrite H4buf, H3buf, length_overwrite. }
    { unfold zero_packet in *. rewrite H4flags, H3zero.
      now destruct (has_capability _ _). }
    { assumption. }
    { rewrite length_drop. lia. }
    { cbn in Hused. lia. }
    { assumption. }
    exists s'', (submit_event urb3 :: evs ++ evs').
    unfold submitted, written, discards in *.
    rewrite Htr', Htr. cbn. rewrite !omap_app, Hs, Hw, Hd, Hw', Hd'. cbn.
    assert (Hpay := take_overwrite got (Buffer urb)).
    rewrite Hgot in Hpay.
    rewrite Hlens, Hcat, Hz, H3len, H3zero, H3buf, Hcap, Nat2Z.id, Hpay by lia.
    repeat split; try assumption.
    + now rewrite <- app_assoc.
    + subst got. apply take_drop.
    + rewrite Hzero. now destruct (has_capability _ _).
Qed.

Lemma prompt_completes (timeout own : Z) (data : list byte) :
  completes timeout own (prompt own data) (reap_of own data).
Proof.
  split; [reflexivity|]. exists [], []. split; [reflexivity|].
  split; [constructor|apply reap_of_returns].
Qed.

(** C2, as stated, fails when the capability is absent: with no capability at
    all, a stream of 4096 bytes on an endpoint whose chunk size is 4096 is
    sent as two requests, the second of length zero. *)
Lemma WriteBulk_terminator_without_capability :
  let stream := replicate 4096 x01 in
  let r := WriteBulk 100 (mkEndpoint 1 Bulk 512) stream 1000
             [prompt 100 []; prompt 100 []] sample_state in
  has_capability (_capabilities sample_state) USBDEVFS_CAP_ZERO_PACKET = false /\
  Urb_buffer_size 512 = Some 4096 /\
  Z.of_nat (length stream) = 1 * 4096 /\
  snd r = Returned [] /\
  map (fun p => buffer_length (fst p)) (submitted (since sample_state (fst r)))
  = [4096; 0].
Proof. cbv zeta. now vm_compute. Qed.

(** C2 (amended): for an endpoint of positive packet size and chunk size
    [size], and an input stream of [k * size] bytes, [WriteBulk], every
    submission of which completes, returns with the stream consumed after
    [k + 1] submissions: [k] chunks of [size] bytes, which are the stream in
    order, and one chunk of length zero, whether the zero-packet capability is
    present or not.  The capability decides only whether that last request
    carries [USBDEVFS_URB_ZERO_PACKET]; the full chunks never do. *)
Theorem WriteBulk_exact_multiple (this : Z) (ep : Endpoint) (stream : list byte)
    (timeout : Z) (used extra : list SubmitEnv) (s : State) (size : Z) (k : nat) :
  0 < GetMaxPacketSize ep ->
  Urb_buffer_size (GetMaxPacketSize ep) = Some size ->
  wf_urbs (_urbs s) ->
  Z.of_nat (length stream) = Z.of_nat k * size ->
  length used = S k ->
  Forall (fun e => exists last, completes timeout this e last) used ->
  let r := WriteBulk this ep stream timeout (used ++ extra) s in
  let sent := submitted (since s (fst r)) in
  snd r = Returned [] /\
  length sent = S k /\
  map (fun p => buffer_length (fst p)) sent = replicate k size ++ [0] /\
  concat (map snd sent) = stream /\
  map (fun p => zero_packet (fst p)) sent
  = replicate k false ++ [has_capability (_capabilities s) USBDEVFS_CAP_ZERO_PACKET].
Proof.
  intros HP Hsize Hwf Hlen Hused Hall.
  assert (Hpos : 0 < size).
  { rewrite Urb_buffer_size_pos in Hsize by assumption.
    injection Hsize as <-. lia. }
  destruct (Urb_new_size this (_fd s) USBDEVFS_URB_TYPE_BULK ep size Hsize)
    as (urb & Hnew & Hts & _); [lia|].
  assert (Hurb : urb = mkUrb this (_fd s) (GetMaxPacketSize ep)
                         (replicate (Z.to_nat size) Byte.x00)
                         (mk_usbdevfs_urb USBDEVFS_URB_TYPE_BULK (GetAddress ep) 0 size 0)).
  { unfold Urb_new in Hnew. rewrite Hsize in Hnew. congruence. }
  cbv zeta. unfold WriteBulk, bind, get_fd. rewrite Hnew, Hts.
  destruct (WriteBulk_loop_spec timeout this (Z.to_nat size) ltac:(lia) k urb
              stream false s used extra)
    as (s' & evs & Hrun & _ & Htr & _ & _ & Hlens & Hcat & Hz).
  { now rewrite Hurb. }
  { rewrite Hurb. cbn. apply length_replicate. }
  { now rewrite Hurb. }
  { assumption. }
  { nia. }
  { assumption. }
  { assumption. }
  rewrite Z2Nat.id in Hrun, Hlens by lia. rewrite Hrun. cbn [fst snd].
  rewrite (since_app _ _ _ Htr).
  repeat split; try assumption.
  apply (f_equal length) in Hlens.
  rewrite length_map, length_app, length_replicate in Hlens. cbn in Hlens. lia.
Qed.

Lemma WriteBulk_exact_multiple_witness :
  let stream := replicate 4096 x01 in
  let s := mkState 3 USBDEVFS_CAP_ZERO_PACKET ∅ [] in
  let r := WriteBulk 100 (mkEndpoint 1 Bulk 512) stream 1000
             ([prompt 100 []; prompt 100 []] ++ []) s in
  let sent := submitted (since s (fst r)) in
  snd r = Returned [] /\
  length sent = 2%nat /\
  map (fun p => buffer_length (fst p)) sent = replicate 1 4096 ++ [0] /\
  concat (map snd sent) = stream /\
  map (fun p => zero_packet (fst p)) sent
  = replicate 1 false ++ [has_capability (_capabilities s) USBDEVFS_CAP_ZERO_PACKET].
Proof.
  apply (WriteBulk_exact_multiple 100 (mkEndpoint 1 Bulk 512) (replicate 4096 x01)
           1000 [prompt 100 []; prompt 100 []] []
           (mkState 3 USBDEVFS_CAP_ZERO_PACKET ∅ []) 4096 1).
  - reflexivity.
  - reflexivity.
  - exact wf_urbs_empty.
  - vm_compute. reflexivity.
  - reflexivity.
  - repeat constructor; eexists; apply prompt_completes.
Defined.

(** ** [ReadBulk] *)

Lemma ReadBulk_loop_step (urb : Urb) (transferSize : Z) (continuation : bool)
    (timeout : Z) (e : SubmitEnv) (envs : list SubmitEnv) (s : State) :
  ReadBulk_loop urb transferSize continuation timeout (e :: envs) s =
  let urb1 :=
    if has_capability (_capabilities s) USBDEVFS_CAP_BULK_CONTINUATION
    then Urb_SetContinuationFlag continuation urb else urb in
  let continuation' :=
    if has_capability (_capabilities s) USBDEVFS_CAP_BULK_CONTINUATION
    then true else continuation in
  match Submit urb1 timeout e s with
  | (s', Returned urb') =>
      let data := take (Z.to_nat (actual_length (KernelUrb urb'))) (Buffer urb') in
      if Z.of_nat (length data) =? transferSize
      then ReadBulk_loop urb' transferSize continuation' timeout envs
             (add_events [EvWrite data] s')
      else (add_events [EvWrite data] s', Returned tt)
  | (s', Threw ex) => (s', Threw ex)
  | (s', Undefined) => (s', Undefined)
  | (s', Waiting) => (s', Waiting)
  end.
Proof.
  cbn [ReadBulk_loop]. unfold bind at 1. unfold get_capabilities. cbn zeta.
  destruct (has_capability (_capabilities s) USBDEVFS_CAP_BULK_CONTINUATION);
    unfold bind;
    match goal with
    | |- context [Submit ?u timeout e s] =>
        destruct (Submit u timeout e s) as [s' [urb'|ex| |]]
    end; try reflexivity;
    unfold Urb_Recv, IObjectOutputStream_Write, bind, emit, ret;
    now destruct (Z.of_nat (length _) =? transferSize).
Qed.

Lemma SetContinuationFlag_facts (continuation : bool) (urb : Urb) :
  this (Urb_SetContinuationFlag continuation urb) = this urb /\
  Buffer (Urb_SetContinuationFlag continuation urb) = Buffer urb.
Proof.
  unfold Urb_SetContinuationFlag, Urb_SetFlag. now destruct continuation.
Qed.

(** The bytes [Urb::Recv] writes after a completion that brought [chunk]. *)
Lemma received_chunk (last : ReapEnv) (urb : Urb) (chunk : list byte) :
  env_urb last = this urb ->
  env_data last = chunk ->
  env_actual_length last = Z.of_nat (length chunk) ->
  (length chunk <= length (Buffer urb))%nat ->
  take (Z.to_nat (actual_length (KernelUrb (completed last urb))))
    (Buffer (completed last urb)) = chunk.
Proof.
  intros Hurb Hdata Hact Hle. unfold completed.
  rewrite Hurb, Z.eqb_refl. cbn. rewrite Hact, Hdata, Nat2Z.id.
  now apply take_overwrite.
Qed.

Lemma ReadBulk_loop_spec (timeout own : Z) (n : nat) :
  forall (fulls : list (list byte)) (short : list byte) (urb : Urb)
         (continuation : bool) (s : State) (used extra : list SubmitEnv),
    this urb = own -> length (Buffer urb) = n ->
    wf_urbs (_urbs s) ->
    Forall (fun c => length c = n) fulls -> (length short < n)%nat ->
    Forall2 (receives timeout own) used (fulls ++ [short]) ->
    exists s' evs,
      ReadBulk_loop urb (Z.of_nat n) continuation timeout (used ++ extra) s
      = (s', Returned tt) /\
      trace s' = trace s ++ evs /\
      written evs = fulls ++ [short] /\
      length (submitted evs) = S (length fulls) /\
      discards evs = [].
Proof.
  induction fulls as [|c fulls IH];
    intros short urb continuation s used extra Hthis Hbuf Hwf Hfulls Hshort Hrecv.
  - cbn [app] in Hrecv.
    apply Forall2_cons_inv_r in Hrecv
      as (e & used' & (last & Hc & Hdata & Hact) & Hnil & ->).
    apply Forall2_nil_inv_r in Hnil as ->.
    cbn [app]. rewrite ReadBulk_loop_step. cbn zeta.
    set (urb1 := if has_capability _ _ then _ else urb).
    assert (H1 : this urb1 = this urb /\ Buffer urb1 = Buffer urb).
    { subst urb1. destruct (has_capability _ _); [|now split].
      apply SetContinuationFlag_facts. }
    destruct H1 as [H1this H1buf].
    destruct (Submit_returns_post urb1 timeout e last s Hwf)
      as (s' & evs & -> & Hwf' & _ & _ & Htr & Hs & Hw & Hd);
      [now rewrite H1this, Hthis|].
    assert (Hlast : env_urb last = this urb1).
    { destruct Hc as (_ & pre & rest & _ & _ & Hret).
      apply Reap_returns_urb in Hret. congruence. }
    rewrite (received_chunk last urb1 short Hlast Hdata Hact)
      by (rewrite H1buf; lia).
    destruct (Z.eqb_spec (Z.of_nat (length short)) (Z.of_nat n)) as [Heq|_]; [lia|].
    exists (add_events [EvWrite short] s'), (submit_event urb1 :: evs ++ [EvWrite short]).
    unfold written, submitted, discards in *. cbn.
    rewrite !omap_app, Hs, Hw, Hd, Htr. cbn.
    repeat split. now rewrite <- app_assoc.
  - cbn [app] in Hrecv.
    apply Forall2_cons_inv_r in Hrecv
      as (e & used' & (last & Hc & Hdata & Hact) & Hrest & ->).
    apply Forall_cons in Hfulls as [Hc_len Hfulls].
    cbn [app]. rewrite ReadBulk_loop_step. cbn zeta.
    set (urb1 := if has_capability _ _ then _ else urb).
    assert (H1 : this urb1 = this urb /\ Buffer urb1 = Buffer urb).
    { subst urb1. destruct (has_capability _ _); [|now split].
      apply SetContinuationFlag_facts. }
    destruct H1 as [H1this H1buf].
    destruct (Submit_returns_post urb1 timeout e last s Hwf)
      as (s' & evs & -> & Hwf' & _ & _ & Htr & Hs & Hw & Hd);
      [now rewrite H1this, Hthis|].
    assert (Hlast : env_urb last = this urb1).
    { destruct Hc as (_ & pre & rest & _ & _ & Hret).
      apply Reap_returns_urb in Hret. congruence. }
    rewrite (received_chunk last urb1 c Hlast Hdata Hact)
      by (rewrite H1buf; lia).
    rewrite Hc_len, Z.eqb_refl.
    destruct (completed_facts last urb1) as (H4this & _ & H4buf & _).
    destruct (IH short (completed last urb1)
                (if has_capability (_capabilities s) USBDEVFS_CAP_BULK_CONTINUATION
                 then true else continuation)
                (add_events [EvWrite c] s') used' extra)
      as (s'' & evs' & -> & Htr' & Hw' & Hs' & Hd'); try assumption.
    { now rewrite H4this, H1this. }
    { now rewrite H4buf, H1buf. }
    exists s'', (submit_event urb1 :: evs ++ [EvWrite c] ++ evs').
    unfold written, submitted, discards in *.
    rewrite Htr'. cbn. rewrite !omap_app, Hs, Hw, Hd, Htr. cbn.
    rewrite Hw', Hs', Hd'.
    repeat split. now rewrite <- !app_assoc.
Qed.

Lemma prompt_receives (timeout own : Z) (chunk : list byte) :
  receives timeout own (prompt own chunk) chunk.
Proof.
  exists (reap_of own chunk). split; [apply prompt_completes|]. now split.
Qed.

(** C6: for an endpoint of positive packet size and chunk size [size], when
    the submissions of [ReadBulk] complete with chunks of exactly [size]
    bytes followed by a chunk of fewer than [size] bytes, [ReadBulk] returns
    after the submission that brought the short chunk, using no later answer
    of the environment, and the output stream has been written the received
    chunks, each whole, in the order of their submission. *)
Theorem ReadBulk_until_short_chunk (this : Z) (ep : Endpoint) (timeout : Z)
    (used extra : list SubmitEnv) (s : State) (size : Z)
    (fulls : list (list byte)) (short : list byte) :
  0 < GetMaxPacketSize ep ->
  Urb_buffer_size (GetMaxPacketSize ep) = Some size ->
  wf_urbs (_urbs s) ->
  Forall (fun c => Z.of_nat (length c) = size) fulls ->
  Z.of_nat (length short) < size ->
  Forall2 (receives timeout this) used (fulls ++ [short]) ->
  let r := ReadBulk this ep timeout (used ++ extra) s in
  snd r = Returned tt /\
  length (submitted (since s (fst r))) = S (length fulls) /\
  written (since s (fst r)) = fulls ++ [short] /\
  concat (written (since s (fst r))) = concat fulls ++ short.
Proof.
  intros HP Hsize Hwf Hfulls Hshort Hrecv.
  assert (Hpos : 0 < size).
  { rewrite Urb_buffer_size_pos in Hsize by assumption.
    injection Hsize as <-. lia. }
  destruct (Urb_new_size this (_fd s) USBDEVFS_URB_TYPE_BULK ep size Hsize)
    as (urb & Hnew & Hts & _); [lia|].
  assert (Hurb : urb = mkUrb this (_fd s) (GetMaxPacketSize ep)
                         (replicate (Z.to_nat size) Byte.x00)
                         (mk_usbdevfs_urb USBDEVFS_URB_TYPE_BULK (GetAddress ep) 0 size 0)).
  { unfold Urb_new in Hnew. rewrite Hsize in Hnew. congruence. }
  cbv zeta. unfold ReadBulk, bind, get_fd. rewrite Hnew, Hts.
  destruct (ReadBulk_loop_spec timeout this (Z.to_nat size) fulls short urb
              false s used extra)
    as (s' & evs & Hrun & Htr & Hw & Hs & _).
  { now rewrite Hurb. }
  { rewrite Hurb. cbn. apply length_replicate. }
  { assumption. }
  { eapply Forall_impl; [exact Hfulls|]. cbn. intros c Hc. lia. }
  { lia. }
  { assumption. }
  rewrite Z2Nat.id in Hrun by lia. rewrite Hrun. cbn [fst snd].
  rewrite (since_app _ _ _ Htr), Hw.
  repeat split; try assumption.
  rewrite concat_app. cbn. now rewrite app_nil_r.
Qed.

Lemma ReadBulk_until_short_chunk_witness :
  let full := replicate 4096 x07 in
  let r := ReadBulk 100 (mkEndpoint 129 Bulk 512) 1000
             ([prompt 100 full; prompt 100 [x01; x02]] ++ [prompt 100 [x03]])
             sample_state in
  snd r = Returned tt /\
  length (submitted (since sample_state (fst r))) = 2%nat /\
  written (since sample_state (fst r)) = [full] ++ [[x01; x02]] /\
  concat (written (since sample_state (fst r))) = concat [full] ++ [x01; x02].
Proof.
  apply (ReadBulk_until_short_chunk 100 (mkEndpoint 129 Bulk 512) 1000
           [prompt 100 (replicate 4096 x07); prompt 100 [x01; x02]]
           [prompt 100 [x03]] sample_state 4096
           [replicate 4096 x07] [x01; x02]).
  - reflexivity.
  - reflexivity.
  - exact wf_urbs_empty.
  - repeat constructor.
  - reflexivity.
  - repeat constructor; apply prompt_receives.
Defined.

(** * Further properties of the file *)

(** ** The constructor *)

Lemma land_clear_unset (c A : Z) : Z.land c A = 0 -> Z.land c (Z.lnot A) = c.
Proof.
  intros H. rewrite <- (Z.land_m1_r c) at 2. rewrite <- (Z.lor_lnot_diag A).
  now rewrite Z.land_lor_distr_r, H, Z.lor_0_l.
Qed.

Lemma PRINT_CAP_spec (CAP : Z) (NAME : string) (c : Z)
    (out : list ConstructorEvent) :
  PRINT_CAP CAP NAME (c, out) =
  (Z.land c (Z.lnot CAP),
   out ++ (if has_capability c CAP then [capability NAME] else [])).
Proof.
  unfold PRINT_CAP, has_capability.
  destruct (Z.eqb_spec (Z.land c CAP) 0) as [H0|_]; cbn; [|reflexivity].
  now rewrite land_clear_unset, app_nil_r.
Qed.

Lemma has_capability_mask (c M B : Z) :
  Z.land M B = B -> has_capability (Z.land c M) B = has_capability c B.
Proof. intros H. unfold has_capability. now rewrite <- Z.land_assoc, H. Qed.

(** X2: The constructor's report names exactly the known capabilities that are
    set, in the order of the constructor, then the bits that are none of
    them, when there are any; it prints "[none]" exactly for the empty
    set. *)
Theorem report_capabilities_lines (c : Z) :
  omap capability_of (report_capabilities c)
  = map snd (List.filter (fun p => has_capability c (fst p)) known_capabilities) /\
  omap unknown_of (report_capabilities c)
  = (if unknown_bits c =? 0 then [] else [unknown_bits c]) /\
  omap none_of (report_capabilities c) = (if c =? 0 then [tt] else []).
Proof.
  unfold report_capabilities, unknown_bits.
  destruct (Z.eqb_spec c 0) as [->|Hc]; [now repeat split|].
  cbn [negb]. rewrite !PRINT_CAP_spec, <- !Z.land_assoc.
  rewrite !(has_capability_mask c) by reflexivity.
  change (Z.land (Z.lnot USBDEVFS_CAP_ZERO_PACKET)
            (Z.land (Z.lnot USBDEVFS_CAP_BULK_CONTINUATION)
               (Z.land (Z.lnot USBDEVFS_CAP_NO_PACKET_SIZE_LIM)
                  (Z.land (Z.lnot USBDEVFS_CAP_BULK_SCATTER_GATHER)
                     (Z.lnot USBDEVFS_CAP_REAP_AFTER_DISCONNECT)))))
    with (Z.lnot 0x1f).
  cbn [known_capabilities List.filter fst snd map].
  destruct (has_capability c USBDEVFS_CAP_ZERO_PACKET),
    (has_capability c USBDEVFS_CAP_BULK_CONTINUATION),
    (has_capability c USBDEVFS_CAP_NO_PACKET_SIZE_LIM),
    (has_capability c USBDEVFS_CAP_BULK_SCATTER_GATHER),
    (has_capability c USBDEVFS_CAP_REAP_AFTER_DISCONNECT);
    destruct (Z.land c (Z.lnot 31) =? 0); now repeat split.
Qed.

(** X1: The constructor never throws: when the capability query fails, the
    failure is logged and the capability set stays empty; when it succeeds
    the set is the [u32] the kernel stored.  The new object has the given
    descriptor and an empty pending table. *)
Theorem Device_new_never_throws (fd : Z) (r : sysret) (probed : Z) :
  exists s out,
    Device_new fd r probed = inr (s, out) /\
    _fd s = fd /\ _urbs s = ∅ /\
    _capabilities s = (if rv r <? 0 then 0 else probed mod 2 ^ 32) /\
    length (omap failed_of out) = (if rv r <? 0 then 1%nat else 0%nat) /\
    (forall cap, rv r < 0 -> has_capability (_capabilities s) cap = false).
Proof.
  unfold Device_new, IOCTL_exception, is_std_exception.
  destruct (Z.ltb_spec (rv r) 0) as [Hneg|Hpos].
  - destruct (errno r =? EBUSY); [|destruct (errno r =? ENODEV)];
      (eexists; eexists; split; [reflexivity|]; cbn; now repeat split).
  - eexists; eexists; split; [reflexivity|]. cbn [_fd _urbs _capabilities].
    repeat split; [|lia].
    rewrite omap_app.
    assert (H : forall c, omap failed_of (report_capabilities c) = []).
    { intros c. unfold report_capabilities.
      destruct (negb (c =? 0)); [|reflexivity].
      rewrite !PRINT_CAP_spec.
      destruct (negb _); rewrite ?omap_app; cbn;
        repeat match goal with
               | |- context [if ?b then _ else _] => destruct b
               end; reflexivity. }
    now rewrite H.
Qed.

(** ** The methods of [Urb] *)

(** X3: [SetFlag<Flag>(value)] gives every bit of [Flag] the given value and
    leaves every other bit of [flags], and every other field of the request,
    as it was. *)
Theorem Urb_SetFlag_bits (Flag : Z) (value : bool) (urb : Urb) (n : nat) :
  let urb' := Urb_SetFlag Flag value urb in
  Z.testbit (flags (KernelUrb urb')) (Z.of_nat n)
  = (if Z.testbit Flag (Z.of_nat n) then value
     else Z.testbit (flags (KernelUrb urb)) (Z.of_nat n)) /\
  urb' = set_KernelUrb (set_flags (flags (KernelUrb urb')) (KernelUrb urb)) urb.
Proof.
  unfold Urb_SetFlag. cbn zeta. destruct value; cbn; split; try reflexivity.
  - rewrite Z.lor_spec. destruct (Z.testbit Flag (Z.of_nat n)); [apply orb_true_r|apply orb_false_r].
  - rewrite Z.land_spec, Z.lnot_spec by lia.
    destruct (Z.testbit Flag (Z.of_nat n)); [apply andb_false_r|apply andb_true_r].
Qed.

(** X4: [Send(const ByteArray &)] copies as many bytes as both the buffer and the
    input have: the buffer keeps its size, its first [r] bytes are the first
    [r] bytes of the input and the others are untouched, [buffer_length] is
    [r], and a submission that follows hands exactly those [r] bytes to the
    kernel. *)
Theorem Urb_Send_bytes_bounds (urb : Urb) (inputData : ByteArray) :
  let r := Nat.min (length (Buffer urb)) (length inputData) in
  let urb' := fst (Urb_Send_bytes urb inputData) in
  snd (Urb_Send_bytes urb inputData) = Z.of_nat r /\
  buffer_length (KernelUrb urb') = Z.of_nat r /\
  length (Buffer urb') = length (Buffer urb) /\
  take r (Buffer urb') = take r inputData /\
  drop r (Buffer urb') = drop r (Buffer urb) /\
  submit_of (submit_event urb')
  = Some (KernelUrb urb', take r inputData) /\
  this urb' = this urb /\ flags (KernelUrb urb') = flags (KernelUrb urb).
Proof.
  cbn zeta. unfold Urb_Send_bytes, submit_event. cbn.
  set (r := Nat.min (length (Buffer urb)) (length inputData)).
  assert (Hr : length (take r inputData) = r) by (rewrite length_take; lia).
  assert (Hov : overwrite (take r inputData) (Buffer urb)
                = take r inputData ++ drop r (Buffer urb)).
  { unfold overwrite. rewrite Hr. f_equal. apply take_ge. lia. }
  rewrite length_overwrite, Hov, Nat2Z.id.
  assert (Ht : take r (take r inputData ++ drop r (Buffer urb)) = take r inputData).
  { rewrite <- Hr at 1. apply take_app_length. }
  rewrite Ht. repeat split.
  rewrite <- Hr at 1. apply drop_app_length.
Qed.

(** X5: After a completion of its request that stored [data] and reports its
    length, [Recv()] returns exactly [data]. *)
Theorem Urb_Recv_bytes_completed (e : ReapEnv) (urb : Urb) :
  env_urb e = this urb ->
  env_actual_length e = Z.of_nat (length (env_data e)) ->
  (length (env_data e) <= length (Buffer urb))%nat ->
  Urb_Recv_bytes (completed e urb) = Some (env_data e).
Proof.
  intros Hurb Hact Hle. unfold Urb_Recv_bytes.
  rewrite (received_chunk e urb (env_data e) Hurb eq_refl Hact Hle).
  unfold completed. rewrite Hurb, Z.eqb_refl. cbn.
  rewrite length_overwrite, Hact.
  destruct (Z.leb_spec 0 (Z.of_nat (length (env_data e)))); [|lia].
  destruct (Z.leb_spec (Z.of_nat (length (env_data e)))
              (Z.of_nat (length (Buffer urb)))); [reflexivity|lia].
Qed.

Lemma Urb_Recv_bytes_completed_witness :
  Urb_Recv_bytes (completed (reap_of 100 [x01; x02]) sample_urb)
  = Some [x01; x02].
Proof.
  apply (Urb_Recv_bytes_completed (reap_of 100 [x01; x02]) sample_urb).
  - reflexivity.
  - reflexivity.
  - cbn. lia.
Defined.

(** ** More on [Reap] *)


(** X7: Once the clock and the [poll] have answered without error, the result of
    [Reap] is the one of the non-blocking reap alone: a [poll] that timed out
    does not fail the call, and a reap that answers [EAGAIN] is a
    [TimeoutException] whether or not the descriptor was reported ready. *)
Theorem Reap_result (timeout : Z) (e : ReapEnv) (s : State) :
  Reap_ready e ->
  snd (Reap timeout e s) =
  if rv (env_reapurb e) =? 0 then Returned (env_urb e)
  else if errno (env_reapurb e) =? EAGAIN
       then Threw (TimeoutException "timeout reaping usb urb")
       else Threw (posix_Exception "ioctl" (errno (env_reapurb e))).
Proof.
  intros (Hs & Hn & Hp).
  apply Z.eqb_neq in Hs, Hn. apply Z.ltb_ge in Hp.
  unfold Reap, gettimeofday, bind, emit, get_fd, error, emit, throw, ret.
  cbn beta iota zeta. rewrite Hs. cbn beta iota zeta. rewrite Hn.
  cbn beta iota zeta. rewrite Hp. cbn beta iota zeta.
  destruct ((rv (env_poll e) =? 0) && (timeout >? 0)); cbn beta iota zeta;
    destruct (rv (env_reapurb e) =? 0); try reflexivity;
    destruct (errno (env_reapurb e) =? EAGAIN); reflexivity.
Qed.

Lemma Reap_result_witness :
  snd (Reap 1000 reap_nothing sample_state) =
  if rv (env_reapurb reap_nothing) =? 0 then Returned (env_urb reap_nothing)
  else if errno (env_reapurb reap_nothing) =? EAGAIN
       then Threw (TimeoutException "timeout reaping usb urb")
       else Threw (posix_Exception "ioctl" (errno (env_reapurb reap_nothing))).
Proof.
  apply (Reap_result 1000 reap_nothing sample_state).
  repeat split; cbn; lia.
Defined.



Lemma quot_near_div (a : Z) : a / 1000 <= Z.quot a 1000 <= a / 1000 + 1.
Proof.
  assert (Hq := Z.quot_rem' a 1000).
  assert (Hd := Z.div_mod a 1000 ltac:(lia)).
  assert (Hm := Z.mod_pos_bound a 1000 ltac:(lia)).
  destruct (Z_le_gt_dec 0 a) as [Hnn|Hneg].
  - assert (Hr := Z.rem_bound_pos a 1000 Hnn ltac:(lia)). lia.
  - assert (Hr := Z.rem_bound_pos_neg a 1000 ltac:(lia) ltac:(lia)). lia.
Qed.

(** X9: When the [poll] of a [Reap] with a positive timeout times out, the line
    "ms since the last poll call" carries the milliseconds between the two
    clock readings, exact or one more: for readings with microseconds in
    range, in order, and less than [2^31] ms apart, it is the elapsed time in
    whole milliseconds, plus one at most. *)
Theorem Reap_elapsed_ms (timeout : Z) (e : ReapEnv) (fd : Z) :
  let started := snd (env_started e) in
  let now := snd (env_now e) in
  rv (fst (env_started e)) <> -1 -> rv (fst (env_now e)) <> -1 ->
  rv (env_poll e) = 0 -> 0 < timeout ->
  0 <= tv_usec started < 1000000 -> 0 <= tv_usec now < 1000000 ->
  0 <= elapsed_us started now < (2 ^ 31 - 1) * 1000 ->
  exists ms,
    In (EvError (ms_since_the_last_poll_call ms)) (Reap_events timeout e fd) /\
    elapsed_us started now / 1000 <= ms <= elapsed_us started now / 1000 + 1.
Proof.
  cbn zeta. intros Hs Hn Hp Ht Hus Hun Hel.
  apply Z.eqb_neq in Hs, Hn.
  unfold Reap_events, Reap, gettimeofday, bind, emit, get_fd, error, emit, throw, ret.
  cbn beta iota zeta. rewrite Hs. cbn beta iota zeta. rewrite Hn.
  cbn beta iota zeta. rewrite Hp.
  replace (timeout >? 0) with true by (symmetry; apply Z.gtb_lt; lia).
  cbn beta iota zeta. cbn [Z.ltb Z.eqb Z.compare andb].
  eexists. split.
  - destruct (rv (env_reapurb e) =? 0);
      [|destruct (errno (env_reapurb e) =? EAGAIN)];
      cbn; right; right; right; left; reflexivity.
  - unfold elapsed_us in *.
    set (ds := tv_sec (snd (env_now e)) - tv_sec (snd (env_started e))) in *.
    set (du := tv_usec (snd (env_now e)) - tv_usec (snd (env_started e))) in *.
    assert (Hq := quot_near_div du).
    assert (Hdiv : (ds * 1000000 + du) / 1000 = ds * 1000 + du / 1000).
    { replace (ds * 1000000 + du) with (ds * 1000 * 1000 + du) by lia.
      apply Z.div_add_l. lia. }
    rewrite Hdiv in *.
    assert (Hb : 0 <= ds * 1000 + du / 1000 < 2 ^ 31 - 1).
    { rewrite <- Hdiv. split.
      - apply Z.div_pos; lia.
      - apply Z.div_lt_upper_bound; lia. }
    unfold to_int. rewrite Z.mod_small by lia. lia.
Qed.

Lemma Reap_elapsed_ms_witness :
  exists ms,
    In (EvError (ms_since_the_last_poll_call ms))
      (Reap_events 1000
         (mkReapEnv (sys_ok, mk_timeval 5 999000) sys_ok
            (sys_ok, mk_timeval 6 500) (mk_sysret (-1) EAGAIN) 0 0 []) 3) /\
    elapsed_us (mk_timeval 5 999000) (mk_timeval 6 500) / 1000 <= ms
    <= elapsed_us (mk_timeval 5 999000) (mk_timeval 6 500) / 1000 + 1.
Proof.
  apply (Reap_elapsed_ms 1000
           (mkReapEnv (sys_ok, mk_timeval 5 999000) sys_ok
              (sys_ok, mk_timeval 6 500) (mk_sysret (-1) EAGAIN) 0 0 []) 3);
    cbn; try lia; try discriminate.
  all: vm_compute; split; discriminate || reflexivity.
Defined.

(** ** More on [Submit] *)

(** X10: A submission the kernel refuses ends the call at once: the exception is
    [DeviceBusyException] for [EBUSY], [DeviceNotFoundException] for [ENODEV]
    and a [posix::Exception] otherwise; the pending table is as it was, and
    the only effect is the submission itself: no reap, no cancellation. *)
Theorem Submit_refused_effects (urb : Urb) (timeout : Z) (e : SubmitEnv)
    (s : State) :
  rv (env_submit e) < 0 ->
  let r := Submit urb timeout e s in
  snd r = Threw
            (if errno (env_submit e) =? EBUSY then DeviceBusyException
             else if errno (env_submit e) =? ENODEV then DeviceNotFoundException
             else posix_Exception "ioctl(Fd, USBDEVFS_SUBMITURB, &KernelUrb)"
                    (errno (env_submit e))) /\
  _urbs (fst r) = _urbs s /\
  since s (fst r) = [submit_event urb].
Proof.
  intros Hrv. apply Z.ltb_lt in Hrv. cbn zeta.
  unfold Submit, Urb_Submit, IOCTL, bind, emit, throw. rewrite Hrv.
  destruct (errno (env_submit e) =? EBUSY);
    [|destruct (errno (env_submit e) =? ENODEV)];
    cbn [fst snd]; (repeat split; apply since_app; reflexivity).
Qed.

Lemma Submit_refused_effects_witness :
  let r := Submit sample_urb 1000 (mkSubmitEnv (mk_sysret (-1) ENODEV) [] 0)
             sample_state in
  snd r = Threw DeviceNotFoundException /\
  _urbs (fst r) = _urbs sample_state /\
  since sample_state (fst r) = [submit_event sample_urb].
Proof.
  apply (Submit_refused_effects sample_urb 1000
           (mkSubmitEnv (mk_sysret (-1) ENODEV) [] 0) sample_state).
  cbn. lia.
Defined.

(** X11: A call of [Submit] that sees its own completion returns the request as
    the kernel completed it; it has submitted once, cancelled nothing and
    printed no [perror] line, and the table has no entry for the request. *)
Theorem Submit_success_effects (urb : Urb) (timeout : Z) (e : SubmitEnv)
    (last : ReapEnv) (s : State) :
  wf_urbs (_urbs s) -> completes timeout (this urb) e last ->
  let r := Submit urb timeout e s in
  snd r = Returned (completed last urb) /\
  _urbs (fst r) !! this urb = None /\
  submitted (since s (fst r))
  = [(KernelUrb urb, take (Z.to_nat (buffer_length (KernelUrb urb))) (Buffer urb))] /\
  discards (since s (fst r)) = [] /\ perrors (since s (fst r)) = [] /\
  written (since s (fst r)) = [].
Proof.
  intros Hwf Hc. cbn zeta.
  assert (Hout := Submit_completes urb timeout e last s Hwf Hc).
  destruct (Submit_post urb timeout e s Hwf)
    as (_ & _ & _ & evs & Htr & Hs & Hw & Hend).
  cbn zeta in Htr, Hend. rewrite Hout in Hend. unfold Submit_ends in Hend.
  destruct Hend as (_ & Hnone & _ & _ & Hd & Hp).
  destruct (since_Submit urb s _ evs Htr) as (-> & -> & -> & ->).
  rewrite Hs. now repeat split.
Qed.

Lemma Submit_success_effects_witness :
  let r := Submit sample_urb 1000 (prompt 100 [x01; x02]) sample_state in
  snd r = Returned (completed (reap_of 100 [x01; x02]) sample_urb) /\
  _urbs (fst r) !! this sample_urb = None /\
  submitted (since sample_state (fst r))
  = [(KernelUrb sample_urb,
      take (Z.to_nat (buffer_length (KernelUrb sample_urb))) (Buffer sample_urb))] /\
  discards (since sample_state (fst r)) = [] /\
  perrors (since sample_state (fst r)) = [] /\
  written (since sample_state (fst r)) = [].
Proof.
  apply (Submit_success_effects sample_urb 1000 (prompt 100 [x01; x02])
           (reap_of 100 [x01; x02]) sample_state).
  - exact wf_urbs_empty.
  - apply prompt_completes.
Defined.

(** X12: Whatever its answers, [Submit] keeps the descriptor and the capability
    set, and leaves a table of [(&urb->KernelUrb, urb)] pairs a table of such
    pairs. *)
Theorem Submit_keeps_invariant (urb : Urb) (timeout : Z) (e : SubmitEnv)
    (s : State) :
  wf_urbs (_urbs s) ->
  let s' := fst (Submit urb timeout e s) in
  wf_urbs (_urbs s') /\ _fd s' = _fd s /\ _capabilities s' = _capabilities s.
Proof.
  intros Hwf. destruct (Submit_post urb timeout e s Hwf) as (H1 & H2 & H3 & _).
  cbn zeta in *. now repeat split.
Qed.

Lemma Submit_keeps_invariant_witness :
  let s' := fst (Submit sample_urb 1000
                   (mkSubmitEnv sys_ok [reap_of 55 []; reap_nothing] 1)
                   sample_state) in
  wf_urbs (_urbs s') /\ _fd s' = _fd sample_state /\
  _capabilities s' = _capabilities sample_state.
Proof.
  exact (Submit_keeps_invariant sample_urb 1000
           (mkSubmitEnv sys_ok [reap_of 55 []; reap_nothing] 1)
           sample_state wf_urbs_empty).
Defined.

Lemma Submit_loop_frame (timeout : Z) (k : Z) (reaps : list ReapEnv) :
  forall (urb : Urb) (s : State),
    ~ In k (reaped reaps) ->
    _urbs (fst (Submit_loop urb timeout reaps s)) !! k = _urbs s !! k.
Proof.
  induction reaps as [|e rest IH]; intros urb s Hk; [reflexivity|].
  cbn in Hk. rewrite Submit_loop_step, Reap_pair.
  destruct (Reap_outcome timeout e s) as [->|[ex ->]]; [|reflexivity].
  cbn [_urbs add_events].
  destruct (_urbs s !! env_urb e) as [v|] eqn:Hlk.
  - destruct (v =? this urb).
    + cbn. apply lookup_delete_ne. tauto.
    + rewrite IH by tauto. cbn. apply lookup_delete_ne. tauto.
  - rewrite IH by tauto. reflexivity.
Qed.

Lemma Submit_catch_state (urb : Urb) (e : SubmitEnv) (ex : exn) (s : State) :
  _urbs (fst (Submit_catch urb e ex s)) = _urbs s.
Proof.
  destruct (Submit_catch_spec urb e ex s) as (evs & -> & _). reflexivity.
Qed.

(** X13: [Submit] touches no entry of the pending table but the one of its request
    and those of the identities its reaps return: an entry for any other
    identity is there afterwards exactly if it was there before. *)
Theorem Submit_leaves_other_entries (urb : Urb) (timeout : Z) (e : SubmitEnv)
    (s : State) (k : Z) :
  k <> this urb -> ~ In k (reaped (env_reaps e)) ->
  _urbs (fst (Submit urb timeout e s)) !! k = _urbs s !! k.
Proof.
  intros Hne Hk. destruct (rv (env_submit e) <? 0) eqn:Hrv.
  - destruct (Submit_refused urb timeout e s Hrv) as [ex ->]. reflexivity.
  - rewrite (Submit_accepted urb timeout e s Hrv).
    set (s0 := set_urbs _ _).
    assert (H0 : _urbs s0 !! k = _urbs s !! k).
    { subst s0. cbn. unfold registered.
      destruct (_urbs s !! this urb); [reflexivity|].
      now apply lookup_insert_ne. }
    rewrite <- H0, <- (Submit_loop_frame timeout k (env_reaps e) urb s0 Hk).
    unfold try_catch.
    destruct (Submit_loop urb timeout (env_reaps e) s0) as [s1 [u|ex| |]];
      try reflexivity.
    now rewrite Submit_catch_state.
Qed.

Lemma Submit_leaves_other_entries_witness :
  _urbs (fst (Submit sample_urb 1000
                (mkSubmitEnv sys_ok [reap_of 55 []; reap_of 100 []] 0)
                (set_urbs (<[200 := 200]> ∅) sample_state))) !! 200
  = _urbs (set_urbs (<[200 := 200]> ∅) sample_state) !! 200.
Proof.
  apply (Submit_leaves_other_entries sample_urb 1000
           (mkSubmitEnv sys_ok [reap_of 55 []; reap_of 100 []] 0)
           (set_urbs (<[200 := 200]> ∅) sample_state) 200).
  - vm_compute. discriminate.
  - vm_compute. intuition discriminate.
Defined.



Lemma reap_events_failures (evs : list Event) :
  Forall reap_event evs -> failures evs = [].
Proof.
  induction 1 as [|ev evs Hev _ IH]; [reflexivity|].
  unfold failures in *. cbn. rewrite IH.
  destruct ev as [fd []| | | [] | | |]; cbn in Hev; try contradiction; reflexivity.
Qed.

Lemma Submit_loop_failures (timeout : Z) (reaps : list ReapEnv) :
  forall (urb : Urb) (s : State),
    exists evs,
      trace (fst (Submit_loop urb timeout reaps s)) = trace s ++ evs /\
      failures evs = [].
Proof.
  induction reaps as [|e rest IH]; intros urb s.
  - exists []. split; [now rewrite app_nil_r|reflexivity].
  - rewrite Submit_loop_step, Reap_pair.
    set (revs := Reap_events timeout e (_fd s)).
    assert (Hrevs : failures revs = [])
      by apply reap_events_failures, Reap_events_reap.
    destruct (snd (Reap timeout e s)) as [k|ex| |];
      try (exists revs; split; [reflexivity|assumption]).
    cbn [_urbs add_events].
    destruct (_urbs s !! k) as [v|]; [destruct (v =? this urb)|].
    + exists revs. split; [reflexivity|assumption].
    + destruct (IH (completed e urb)
                  (set_urbs (delete k (_urbs s)) (add_events revs s)))
        as (evs & -> & Hevs).
      exists (revs ++ evs). cbn. rewrite app_assoc. split; [reflexivity|].
      unfold failures in *. now rewrite omap_app, Hrevs, Hevs.
    + destruct (IH (completed e urb)
                  (add_events [EvError (got_unknown_urb k)] (add_events revs s)))
        as (evs & -> & Hevs).
      exists (revs ++ EvError (got_unknown_urb k) :: evs). cbn.
      rewrite <- !app_assoc. split; [reflexivity|].
      unfold failures in *. rewrite omap_app, Hrevs. cbn. assumption.
Qed.

Lemma Submit_catch_failures (urb : Urb) (e : SubmitEnv) (ex : exn) (s : State) :
  exists evs,
    Submit_catch urb e ex s = (add_events evs s, Threw ex) /\
    failures evs = (if is_TimeoutException ex then [] else [ex]).
Proof.
  unfold Submit_catch, Urb_Discard, is_std_exception, bind, error, perror,
    emit, throw, ret.
  destruct (is_TimeoutException ex); destruct (env_discard e =? 0); cbn;
    rewrite ?add_events_add_events; eexists; (split; [reflexivity|]);
    reflexivity.
Qed.

Lemma Submit_threw_failures (urb : Urb) (timeout : Z) (e : SubmitEnv)
    (s : State) (ex : exn) :
  (rv (env_submit e) <? 0) = false ->
  snd (Submit urb timeout e s) = Threw ex ->
  failures (since s (fst (Submit urb timeout e s)))
  = (if is_TimeoutException ex then [] else [ex]).
Proof.
  intros Hrv. rewrite (Submit_accepted urb timeout e s Hrv).
  set (s0 := set_urbs _ _).
  destruct (Submit_loop_failures timeout (env_reaps e) urb s0) as (evs & Htr & Hevs).
  unfold try_catch.
  destruct (Submit_loop urb timeout (env_reaps e) s0) as [s1 [u|ex'| |]];
    try discriminate.
  cbn [fst] in Htr.
  destruct (Submit_catch_failures urb e ex' s1) as (hevs & -> & Hh).
  cbn [fst snd]. intros [= ->].
  rewrite (since_app s _ (submit_event urb :: evs ++ hevs)).
  - unfold failures in *. cbn. now rewrite omap_app, Hevs, Hh.
  - cbn. rewrite Htr. subst s0. cbn. now rewrite <- !app_assoc.
Qed.

(** X14: A call of [Submit] whose submission was accepted and which,
    after completions of other requests only, finds [Reap] throwing, throws
    the same exception after exactly one cancellation of its request.  A
    failure other than a timeout is logged once as "error while submitting
    urb"; a timeout is not logged. *)
Theorem Submit_reap_failure (urb : Urb) (timeout : Z) (e : SubmitEnv)
    (pre : list ReapEnv) (t : ReapEnv) (rest : list ReapEnv) (ex : exn)
    (s : State) :
  wf_urbs (_urbs s) ->
  (rv (env_submit e) <? 0) = false ->
  env_reaps e = pre ++ t :: rest ->
  Forall (other_completion timeout (this urb)) pre ->
  Reap_throws timeout t ex ->
  let s' := fst (Submit urb timeout e s) in
  snd (Submit urb timeout e s) = Threw ex /\
  discards (since s s') = [this urb] /\
  failures (since s s') = (if is_TimeoutException ex then [] else [ex]) /\
  submitted (since s s')
  = [(KernelUrb urb, take (Z.to_nat (buffer_length (KernelUrb urb))) (Buffer urb))].
Proof.
  intros Hwf Hrv Hreaps Hpre Ht. cbn zeta.
  assert (Hout := Submit_throws urb timeout e pre t rest _ s Hwf Hrv Hreaps Hpre Ht).
  destruct (Submit_post urb timeout e s Hwf) as (_ & _ & _ & evs & Htr & Hs & _ & Hend).
  cbn zeta in Htr, Hend. unfold Submit_ends in Hend. rewrite Hout, Hrv in Hend.
  destruct Hend as (_ & Hd & _).
  rewrite (Submit_threw_failures urb timeout e s ex Hrv Hout).
  destruct (since_Submit urb s _ evs Htr) as (-> & _ & _ & ->).
  rewrite Hs. now repeat split.
Qed.

Lemma Submit_reap_failure_witness :
  let e := mkSubmitEnv sys_ok [reap_of 55 []; reap_interrupted] 0 in
  let s' := fst (Submit sample_urb 1000 e sample_state) in
  snd (Submit sample_urb 1000 e sample_state) = Threw (posix_Exception "poll" 4) /\
  discards (since sample_state s') = [this sample_urb] /\
  failures (since sample_state s')
  = (if is_TimeoutException (posix_Exception "poll" 4) then []
     else [posix_Exception "poll" 4]) /\
  submitted (since sample_state s')
  = [(KernelUrb sample_urb,
      take (Z.to_nat (buffer_length (KernelUrb sample_urb))) (Buffer sample_urb))].
Proof.
  apply (Submit_reap_failure sample_urb 1000
           (mkSubmitEnv sys_ok [reap_of 55 []; reap_interrupted] 0)
           [reap_of 55 []] reap_interrupted [] (posix_Exception "poll" 4)
           sample_state).
  - exact wf_urbs_empty.
  - reflexivity.
  - reflexivity.
  - constructor; [|constructor]. exists 55. split; [apply reap_of_returns|].
    vm_compute. discriminate.
  - intros s. reflexivity.
Defined.



(** X16: Two calls on one session, [A] and [B], both inside their reap loops.
    When the loop of [A] reaps the completion of [B] before its own, it
    erases the entry of [B] and goes on to return normally; the completion is
    lost to [B], whose loop then ends with the [TimeoutException] of its next
    empty reap and one cancellation of its request. *)
Theorem completion_taken_by_another_call (urbA urbB : Urb) (timeout : Z)
    (envA envB : SubmitEnv) (rB rA t : ReapEnv) (restA restB : list ReapEnv)
    (what : string) (s : State) :
  wf_urbs (_urbs s) ->
  _urbs s !! this urbA = Some (this urbA) ->
  _urbs s !! this urbB = Some (this urbB) ->
  this urbA <> this urbB ->
  Reap_returns timeout rB (this urbB) ->
  Reap_returns timeout rA (this urbA) ->
  Reap_throws timeout t (TimeoutException what) ->
  let a := try_catch (Submit_loop urbA timeout (rB :: rA :: restA))
             (Submit_catch urbA envA) s in
  let b := try_catch (Submit_loop urbB timeout (t :: restB))
             (Submit_catch urbB envB) (fst a) in
  snd a = Returned (completed rA urbA) /\
  _urbs (fst a) !! this urbB = None /\
  snd b = Threw (TimeoutException what) /\
  discards (since (fst a) (fst b)) = [this urbB].
Proof.
  intros Hwf HA HB Hne HrB HrA Ht. cbn zeta.
  assert (HuB := Reap_returns_urb _ _ _ HrB).
  assert (Hloop :
    Submit_loop urbA timeout (rB :: rA :: restA) s =
    Submit_loop urbA timeout (rA :: restA)
      (set_urbs (delete (this urbB) (_urbs s))
         (add_events (Reap_events timeout rB (_fd s)) s))).
  { rewrite Submit_loop_step, Reap_pair, (HrB s). cbn [_urbs add_events].
    rewrite HB. destruct (Z.eqb_spec (this urbB) (this urbA)) as [|_]; [congruence|].
    rewrite completed_other by congruence. reflexivity. }
  set (s1 := set_urbs _ _) in Hloop.
  assert (HA1 : _urbs s1 !! this urbA = Some (this urbA)).
  { subst s1. cbn. rewrite lookup_delete_ne by congruence. exact HA. }
  rewrite (Submit_loop_own urbA timeout rA restA s1 HA1 HrA) in Hloop.
  set (s2 := set_urbs _ _) in Hloop.
  assert (Ha : try_catch (Submit_loop urbA timeout (rB :: rA :: restA))
                 (Submit_catch urbA envA) s = (s2, Returned (completed rA urbA))).
  { unfold try_catch. now rewrite Hloop. }
  rewrite Ha. cbn [fst snd].
  assert (HB2 : _urbs s2 !! this urbB = None).
  { subst s2 s1. cbn. rewrite lookup_delete_ne by congruence.
    apply lookup_delete_eq. }
  unfold try_catch. rewrite (Submit_loop_throws urbB timeout t restB _ s2 Ht).
  destruct (Submit_catch_spec urbB envB (TimeoutException what)
              (add_events (Reap_events timeout t (_fd s2)) s2))
    as (hevs & -> & Hd & _).
  cbn [fst snd]. repeat split; try assumption.
  rewrite (since_app s2 _ (Reap_events timeout t (_fd s2) ++ hevs)).
  - unfold discards in *. rewrite omap_app, Hd.
    destruct (loop_events_quiet (Reap_events timeout t (_fd s2))) as (Hq & _).
    { eapply Forall_impl; [apply Reap_events_reap|apply reap_event_loop_event]. }
    unfold discards in Hq. now rewrite Hq.
  - cbn. now rewrite app_assoc.
Qed.

Lemma completion_taken_by_another_call_witness :
  let urbB := mkUrb 200 3 4 [x00; x00; x00; x00]
                (mk_usbdevfs_urb USBDEVFS_URB_TYPE_BULK 129 0 4 0) in
  let s := set_urbs (<[100 := 100]> (<[200 := 200]> ∅)) sample_state in
  let env := mkSubmitEnv sys_ok [] 0 in
  let a := try_catch (Submit_loop sample_urb 1000 [reap_of 200 []; reap_of 100 []])
             (Submit_catch sample_urb env) s in
  let b := try_catch (Submit_loop urbB 1000 [reap_nothing])
             (Submit_catch urbB env) (fst a) in
  snd a = Returned (completed (reap_of 100 []) sample_urb) /\
  _urbs (fst a) !! this urbB = None /\
  snd b = Threw (TimeoutException "timeout reaping usb urb") /\
  discards (since (fst a) (fst b)) = [this urbB].
Proof.
  apply (completion_taken_by_another_call sample_urb
           (mkUrb 200 3 4 [x00; x00; x00; x00]
              (mk_usbdevfs_urb USBDEVFS_URB_TYPE_BULK 129 0 4 0))
           1000 (mkSubmitEnv sys_ok [] 0) (mkSubmitEnv sys_ok [] 0)
           (reap_of 200 []) (reap_of 100 []) reap_nothing [] []
           "timeout reaping usb urb"
           (set_urbs (<[100 := 100]> (<[200 := 200]> ∅)) sample_state)).
  - apply wf_urbs_insert, wf_urbs_insert, wf_urbs_empty.
  - reflexivity.
  - reflexivity.
  - vm_compute. discriminate.
  - apply reap_of_returns.
  - apply reap_of_returns.
  - apply reap_nothing_throws.
Defined.

(** ** More on [WriteBulk] *)

Lemma bulk_continuation_SetContinuationFlag (continuation : bool) (urb : Urb) :
  bulk_continuation (KernelUrb (Urb_SetContinuationFlag continuation urb))
  = continuation.
Proof.
  unfold bulk_continuation, Urb_SetContinuationFlag, Urb_SetFlag.
  destruct continuation; cbn.
  - now apply has_flag_lor_same.
  - apply has_flag_clear_same.
Qed.

Lemma bulk_continuation_SetZeroPacketFlag (zero : bool) (urb : Urb) :
  bulk_continuation (KernelUrb (Urb_SetZeroPacketFlag zero urb))
  = bulk_continuation (KernelUrb urb).
Proof.
  unfold bulk_continuation, Urb_SetZeroPacketFlag, Urb_SetFlag.
  destruct zero; cbn.
  - now apply has_flag_lor_other.
  - now apply has_flag_clear_other.
Qed.

Lemma WriteBulk_urb_continuation (capabilities : Z) (continuation : bool)
    (transferSize : Z) (got : list byte) (urb : Urb) :
  bulk_continuation
    (KernelUrb (WriteBulk_urb capabilities continuation transferSize got urb))
  = (if has_capability capabilities USBDEVFS_CAP_BULK_CONTINUATION
     then continuation else bulk_continuation (KernelUrb urb)).
Proof.
  unfold WriteBulk_urb. cbn zeta.
  destruct (has_capability capabilities USBDEVFS_CAP_BULK_CONTINUATION).
  - apply bulk_continuation_SetContinuationFlag.
  - destruct (has_capability capabilities USBDEVFS_CAP_ZERO_PACKET);
      [now rewrite bulk_continuation_SetZeroPacketFlag|reflexivity].
Qed.

Lemma continuations_continued (capable c : bool) (k : nat) :
  continuations capable (continued capable c) k = replicate k capable.
Proof. destruct k; [reflexivity|]. now destruct capable. Qed.

Lemma continued_continued (capable c : bool) :
  continued capable (continued capable c) = continued capable c.
Proof. now destruct capable. Qed.

(** One iteration of [WriteBulk] whose submission completes. *)
Lemma WriteBulk_iteration (timeout own : Z) (n : nat) (urb : Urb)
    (stream : list byte) (continuation : bool) (s : State) (e : SubmitEnv) :
  bulk_urb own n (_capabilities s) urb -> wf_urbs (_urbs s) ->
  (exists last, completes timeout own e last) ->
  let got := take n stream in
  let full := Z.of_nat (length got) =? Z.of_nat n in
  let capable := has_capability (_capabilities s) USBDEVFS_CAP_BULK_CONTINUATION in
  exists urb' s' k evs,
    Submit (WriteBulk_urb (_capabilities s) continuation (Z.of_nat n) got urb)
      timeout e s = (s', Returned urb') /\
    (full = true -> bulk_urb own n (_capabilities s) urb') /\
    bulk_run s s' evs /\
    written evs = [] /\
    submitted evs = [(k, got)] /\
    buffer_length k = Z.of_nat (length got) /\
    zero_packet k
    = (has_capability (_capabilities s) USBDEVFS_CAP_ZERO_PACKET && negb full) /\
    bulk_continuation k = (capable && continuation).
Proof.
  intros [Hthis Hbuf Hzero Hcont] Hwf (last & Hc). cbn zeta.
  set (got := take n stream).
  assert (Hgot : (length got <= n)%nat) by (subst got; rewrite length_take; lia).
  set (urb3 := WriteBulk_urb (_capabilities s) continuation (Z.of_nat n) got urb).
  destruct (WriteBulk_urb_facts (_capabilities s) continuation (Z.of_nat n) got urb)
    as (H3this & _ & H3buf & H3len & H3zero).
  assert (H3cont := WriteBulk_urb_continuation (_capabilities s) continuation
                      (Z.of_nat n) got urb).
  fold urb3 in H3this, H3buf, H3len, H3zero, H3cont.
  destruct (Submit_returns_post urb3 timeout e last s Hwf)
    as (s' & evs & Hrun & Hwf' & _ & Hcap & Htr & Hs & Hw & Hd);
    [now rewrite H3this, Hthis|].
  destruct (completed_facts last urb3) as (H4this & _ & H4buf & H4flags).
  exists (completed last urb3), s', (KernelUrb urb3), (submit_event urb3 :: evs).
  split; [exact Hrun|]. split.
  { intros Hfull. constructor.
    - now rewrite H4this, H3this.
    - now rewrite H4buf, H3buf, length_overwrite.
    - unfold zero_packet in *. rewrite H4flags, H3zero, Hfull.
      destruct (has_capability (_capabilities s) USBDEVFS_CAP_ZERO_PACKET);
        [reflexivity|exact Hzero].
    - intros Hcap0. unfold bulk_continuation in *.
      rewrite H4flags, H3cont, Hcap0. now apply Hcont. }
  split; [constructor; try assumption; unfold discards in *; cbn; assumption|].
  unfold written, submitted in *. cbn. rewrite Hw, Hs, H3len, H3buf.
  rewrite Nat2Z.id, take_overwrite by lia.
  repeat split.
  - rewrite H3zero, Hzero.
    now destruct (has_capability (_capabilities s) USBDEVFS_CAP_ZERO_PACKET),
      (_ =? _).
  - rewrite H3cont.
    destruct (has_capability (_capabilities s) USBDEVFS_CAP_BULK_CONTINUATION) eqn:Hcb;
      [reflexivity|]. now apply Hcont.
Qed.

Lemma continued_after_continued (capable c : bool) (k : nat) :
  continued_after capable (continued capable c) k = continued capable c.
Proof. destruct k; [reflexivity|]. apply continued_continued. Qed.

Lemma bulk_urb_capabilities (own : Z) (n : nat) (c c' : Z) (urb : Urb) :
  c' = c -> bulk_urb own n c urb -> bulk_urb own n c' urb.
Proof. now intros ->. Qed.

Lemma WriteBulk_loop_full_chunks (timeout own : Z) (n : nat) :
  forall (k : nat) (urb : Urb) (stream : list byte) (continuation : bool)
         (s : State) (used rest : list SubmitEnv),
    bulk_urb own n (_capabilities s) urb -> wf_urbs (_urbs s) ->
    (k * n <= length stream)%nat -> length used = k ->
    Forall (fun e => exists last, completes timeout own e last) used ->
    let capable := has_capability (_capabilities s) USBDEVFS_CAP_BULK_CONTINUATION in
    exists urb' s' evs,
      WriteBulk_loop urb (Z.of_nat n) stream continuation timeout (used ++ rest) s
      = WriteBulk_loop urb' (Z.of_nat n) (drop (k * n) stream)
          (continued_after capable continuation k) timeout rest s' /\
      bulk_urb own n (_capabilities s) urb' /\
      bulk_run s s' evs /\
      written evs = [] /\
      concat (map snd (submitted evs)) = take (k * n) stream /\
      map (fun p => buffer_length (fst p)) (submitted evs)
      = replicate k (Z.of_nat n) /\
      map (fun p => zero_packet (fst p)) (submitted evs) = replicate k false /\
      map (fun p => bulk_continuation (fst p)) (submitted evs)
      = continuations capable continuation k.
Proof.
  induction k as [|k IH];
    intros urb stream continuation s used rest Hurb Hwf Hlen Hused Hall.
  - destruct used; [|discriminate]. cbn zeta.
    exists urb, s, []. cbn.
    split; [reflexivity|]. split; [assumption|].
    split; [|now repeat split].
    constructor; try reflexivity; try assumption. now rewrite app_nil_r.
  - destruct used as [|e used]; [discriminate|].
    apply Forall_cons in Hall as [Hc Hall]. cbn zeta. cbn [app].
    rewrite WriteBulk_loop_step. cbn zeta. rewrite Nat2Z.id.
    destruct (WriteBulk_iteration timeout own n urb stream continuation s e
                Hurb Hwf Hc)
      as (urb1 & s1 & k1 & evs1 & -> & Hurb1 & [Hwf1 Hcap1 Htr1 Hd1]
          & Hw1 & Hs1 & Hlen1 & Hz1 & Hc1).
    cbn [Nat.mul] in Hlen.
    assert (Hgot : length (take n stream) = n) by (rewrite length_take; lia).
    rewrite Hgot, Z.eqb_refl in *.
    specialize (Hurb1 eq_refl).
    destruct (IH urb1 (drop n stream)
                (if has_capability (_capabilities s) USBDEVFS_CAP_BULK_CONTINUATION
                 then true else continuation) s1 used rest)
      as (urb' & s' & evs & -> & Hurb' & [Hwf' Hcap' Htr' Hd'] & Hw & Hcat
          & Hlens & Hz & Hc').
    { now apply (bulk_urb_capabilities own n (_capabilities s)). }
    { assumption. }
    { rewrite length_drop. lia. }
    { now injection Hused. }
    { assumption. }
    rewrite Hcap1 in *.
    exists urb', s', (evs1 ++ evs).
    fold (continued (has_capability (_capabilities s) USBDEVFS_CAP_BULK_CONTINUATION)
            continuation) in *.
    rewrite continued_after_continued, continuations_continued in *.
    unfold written, submitted, discards in *.
    rewrite !omap_app, Hw1, Hw, Hs1. cbn [app map concat fst snd].
    rewrite Hcat, Hlens, Hz, Hc', Hlen1, Hz1, Hc1, drop_drop, take_take_drop.
    cbn [Nat.mul continuations continued_after replicate].
    rewrite andb_false_r.
    split; [reflexivity|]. split; [exact Hurb'|].
    split; [|now repeat split].
    constructor; try assumption.
    + now rewrite Htr', Htr1, app_assoc.
    + unfold discards. now rewrite omap_app, Hd1, Hd'.
Qed.

Lemma WriteBulk_iteration_fails (timeout own : Z) (n : nat) (urb : Urb)
    (stream : list byte) (continuation : bool) (s : State) (e : SubmitEnv)
    (ex : exn) :
  bulk_urb own n (_capabilities s) urb -> wf_urbs (_urbs s) ->
  fails_with timeout own e ex ->
  exists s' k evs,
    Submit (WriteBulk_urb (_capabilities s) continuation (Z.of_nat n)
              (take n stream) urb) timeout e s = (s', Threw ex) /\
    trace s' = trace s ++ evs /\
    submitted evs = [(k, take n stream)] /\
    discards evs = [own] /\ written evs = [].
Proof.
  intros [Hthis Hbuf _ _] Hwf (Hrv & pre & t & rest & Hreaps & Hpre & Ht).
  set (got := take n stream).
  assert (Hgot : (length got <= n)%nat) by (subst got; rewrite length_take; lia).
  set (urb3 := WriteBulk_urb (_capabilities s) continuation (Z.of_nat n) got urb).
  destruct (WriteBulk_urb_facts (_capabilities s) continuation (Z.of_nat n) got urb)
    as (H3this & _ & H3buf & H3len & _).
  fold urb3 in H3this, H3buf, H3len.
  assert (Hown : this urb3 = own) by congruence.
  rewrite <- Hown in Hpre.
  assert (Hout := Submit_throws urb3 timeout e pre t rest ex s Hwf Hrv Hreaps Hpre Ht).
  destruct (Submit_post urb3 timeout e s Hwf) as (_ & _ & _ & evs & Htr & Hs & Hw & Hend).
  cbn zeta in Htr, Hend. unfold Submit_ends in Hend. rewrite Hout, Hrv in Hend.
  destruct Hend as (_ & Hd & _).
  destruct (Submit urb3 timeout e s) as [s' o]. cbn [fst snd] in *. subst o.
  exists s', (KernelUrb urb3), (submit_event urb3 :: evs).
  unfold submitted, discards, written in *. cbn.
  rewrite Hs, Hd, Hw, H3len, H3buf, Nat2Z.id, take_overwrite by lia.
  now rewrite Hown.
Qed.

Lemma split_last {A} (l : list A) (k : nat) :
  length l = S k -> exists pre x, l = pre ++ [x] /\ length pre = k.
Proof.
  induction l as [|x l _] using rev_ind; [discriminate|].
  rewrite length_app. cbn. intros H. exists l, x. split; [reflexivity|lia].
Qed.

Lemma fresh_bulk_urb (this fd : Z) (ep : Endpoint) (size capabilities : Z) :
  0 <= size ->
  bulk_urb this (Z.to_nat size) capabilities
    (mkUrb this fd (GetMaxPacketSize ep) (replicate (Z.to_nat size) Byte.x00)
       (mk_usbdevfs_urb USBDEVFS_URB_TYPE_BULK (GetAddress ep) 0 size 0)).
Proof.
  intros Hsize. constructor; cbn; try reflexivity. apply length_replicate.
Qed.

Lemma Urb_new_bulk (this fd : Z) (ep : Endpoint) (size : Z) :
  0 < GetMaxPacketSize ep ->
  Urb_buffer_size (GetMaxPacketSize ep) = Some size ->
  0 < size /\
  Urb_new this fd USBDEVFS_URB_TYPE_BULK ep
  = Some (mkUrb this fd (GetMaxPacketSize ep) (replicate (Z.to_nat size) Byte.x00)
            (mk_usbdevfs_urb USBDEVFS_URB_TYPE_BULK (GetAddress ep) 0 size 0)).
Proof.
  intros HP Hsize. split.
  - rewrite Urb_buffer_size_pos in Hsize by assumption. injection Hsize as <-. lia.
  - unfold Urb_new. now rewrite Hsize.
Qed.

(** A whole run of [WriteBulk] on any stream, every submission completing. *)
Lemma WriteBulk_run (this : Z) (ep : Endpoint) (stream : list byte)
    (timeout : Z) (used extra : list SubmitEnv) (s : State) (size : Z) :
  0 < GetMaxPacketSize ep ->
  Urb_buffer_size (GetMaxPacketSize ep) = Some size ->
  wf_urbs (_urbs s) ->
  let n := Z.to_nat size in
  let k := (length stream / n)%nat in
  length used = S k ->
  Forall (fun e => exists last, completes timeout this e last) used ->
  exists s' evs,
    WriteBulk this ep stream timeout (used ++ extra) s = (s', Returned []) /\
    trace s' = trace s ++ evs /\
    discards evs = [] /\ written evs = [] /\
    concat (map snd (submitted evs)) = stream /\
    map (fun p => buffer_length (fst p)) (submitted evs)
    = replicate k size ++ [Z.of_nat (length stream mod n)] /\
    map (fun p => zero_packet (fst p)) (submitted evs)
    = replicate k false
        ++ [has_capability (_capabilities s) USBDEVFS_CAP_ZERO_PACKET] /\
    map (fun p => bulk_continuation (fst p)) (submitted evs)
    = false :: replicate k
                 (has_capability (_capabilities s) USBDEVFS_CAP_BULK_CONTINUATION).
Proof.
  intros HP Hsize Hwf n k Hused Hall.
  destruct (Urb_new_bulk this (_fd s) ep size HP Hsize) as (Hpos & Hnew).
  assert (Hn : (0 < n)%nat) by (subst n; lia).
  assert (Hzn : Z.of_nat n = size) by (subst n; lia).
  destruct (split_last used k Hused) as (pre & e & -> & Hpre).
  apply Forall_app in Hall as [Hall He]. apply Forall_cons in He as [He _].
  assert (Hkn : (k * n <= length stream)%nat).
  { subst k. rewrite Nat.mul_comm. apply Nat.Div0.mul_div_le. }
  assert (Hrem : (length stream - k * n = length stream mod n)%nat).
  { subst k. assert (H := Nat.div_mod_eq (length stream) n). lia. }
  assert (Hlt : (length stream mod n < n)%nat) by (apply Nat.mod_upper_bound; lia).
  unfold WriteBulk, bind, get_fd. rewrite Hnew.
  unfold Urb_GetTransferSize. cbn [Buffer]. rewrite length_replicate. fold n.
  rewrite <- app_assoc. cbn [app].
  assert (Hfresh := fresh_bulk_urb this (_fd s) ep size (_capabilities s)
                      ltac:(lia)).
  fold n in Hfresh.
  destruct (WriteBulk_loop_full_chunks timeout this n k _ stream false s pre
              (e :: extra) Hfresh Hwf Hkn Hpre Hall)
    as (urb1 & s1 & evs1 & -> & Hurb1 & [Hwf1 Hcap1 Htr1 Hd1] & Hw1 & Hcat1
        & Hlens1 & Hz1 & Hc1).
  rewrite WriteBulk_loop_step. cbn zeta. rewrite Nat2Z.id.
  destruct (WriteBulk_iteration timeout this n urb1 (drop (k * n) stream)
              (continued_after
                 (has_capability (_capabilities s) USBDEVFS_CAP_BULK_CONTINUATION)
                 false k) s1 e)
    as (urb2 & s2 & k2 & evs2 & Hsub & _ & [Hwf2 Hcap2 Htr2 Hd2]
        & Hw2 & Hs2 & Hlen2 & Hz2 & Hc2).
  { now apply (bulk_urb_capabilities this n (_capabilities s)). }
  { assumption. }
  { assumption. }
  rewrite Hcap1 in *. rewrite Hsub.
  assert (Hshort : take n (drop (k * n) stream) = drop (k * n) stream).
  { apply take_ge. rewrite length_drop. lia. }
  rewrite Hshort in *. rewrite length_drop, Hrem in *.
  destruct (Z.eqb_spec (Z.of_nat (length stream mod n)) (Z.of_nat n)) as [Heq|_];
    [lia|].
  rewrite (drop_ge (drop (k * n) stream)) by (rewrite length_drop; lia).
  exists s2, (evs1 ++ evs2).
  unfold written, submitted, discards in *.
  rewrite !omap_app, Hw1, Hw2, Hd1, Hd2, Hs2, !map_app, concat_app.
  cbn [map concat fst snd app].
  rewrite Hcat1, Hlens1, Hz1, Hc1, Hlen2, Hz2, Hc2, app_nil_r, take_drop, Hzn.
  rewrite andb_true_r.
  repeat split.
  - now rewrite Htr2, Htr1, app_assoc.
  - destruct k as [|k']; cbn [continuations continued_after].
    + now rewrite andb_false_r.
    + rewrite andb_false_r. cbn [app]. f_equal.
      destruct (has_capability (_capabilities s) USBDEVFS_CAP_BULK_CONTINUATION);
        cbn [continued andb];
        now rewrite <- replicate_cons_app.
Qed.

Lemma chunk_count (stream : list byte) (size : Z) :
  0 < size ->
  Z.to_nat (Z.of_nat (length stream) / size)
  = (length stream / Z.to_nat size)%nat /\
  Z.of_nat (length stream mod Z.to_nat size) = Z.of_nat (length stream) mod size.
Proof.
  intros Hpos. split.
  - rewrite <- (Z2Nat.id size) at 1 by lia.
    rewrite <- Nat2Z.inj_div. apply Nat2Z.id.
  - rewrite Nat2Z.inj_mod, Z2Nat.id by lia. reflexivity.
Qed.

(** X17: [WriteBulk] cuts any stream of [N] bytes into [N / size] chunks of
    [size] bytes and one last chunk of [N mod size] bytes, possibly empty:
    when every submission completes it returns with the stream consumed, the
    payloads submitted are the stream in order, and nothing is cancelled. *)
Theorem WriteBulk_chunks (this : Z) (ep : Endpoint) (stream : list byte)
    (timeout : Z) (used extra : list SubmitEnv) (s : State) (size : Z) :
  0 < GetMaxPacketSize ep ->
  Urb_buffer_size (GetMaxPacketSize ep) = Some size ->
  wf_urbs (_urbs s) ->
  length used = S (Z.to_nat (Z.of_nat (length stream) / size)) ->
  Forall (fun e => exists last, completes timeout this e last) used ->
  let r := WriteBulk this ep stream timeout (used ++ extra) s in
  let sent := submitted (since s (fst r)) in
  snd r = Returned [] /\
  concat (map snd sent) = stream /\
  map (fun p => buffer_length (fst p)) sent
  = replicate (Z.to_nat (Z.of_nat (length stream) / size)) size
      ++ [Z.of_nat (length stream) mod size] /\
  discards (since s (fst r)) = [].
Proof.
  intros HP Hsize Hwf Hused Hall.
  destruct (Urb_new_bulk this (_fd s) ep size HP Hsize) as (Hpos & _).
  destruct (chunk_count stream size Hpos) as (Hk & Hm).
  rewrite Hk in *. rewrite <- Hm.
  destruct (WriteBulk_run this ep stream timeout used extra s size HP Hsize Hwf
              Hused Hall)
    as (s' & evs & Hrun & Htr & Hd & _ & Hcat & Hlens & _).
  cbv zeta. rewrite Hrun. cbn [fst snd]. rewrite (since_app _ _ _ Htr).
  now repeat split.
Qed.

Lemma WriteBulk_chunks_witness :
  let stream := replicate 5000 x01 in
  let r := WriteBulk 100 (mkEndpoint 1 Bulk 512) stream 1000
             ([prompt 100 []; prompt 100 []] ++ []) sample_state in
  let sent := submitted (since sample_state (fst r)) in
  snd r = Returned [] /\
  concat (map snd sent) = stream /\
  map (fun p => buffer_length (fst p)) sent
  = replicate (Z.to_nat (Z.of_nat (length stream) / 4096)) 4096
      ++ [Z.of_nat (length stream) mod 4096] /\
  discards (since sample_state (fst r)) = [].
Proof.
  apply (WriteBulk_chunks 100 (mkEndpoint 1 Bulk 512) (replicate 5000 x01) 1000
           [prompt 100 []; prompt 100 []] [] sample_state 4096).
  - reflexivity.
  - reflexivity.
  - exact wf_urbs_empty.
  - vm_compute. reflexivity.
  - repeat constructor; eexists; apply prompt_completes.
Defined.

(** X18: The flags of the requests of [WriteBulk]: only the last chunk, the short
    one, can carry [USBDEVFS_URB_ZERO_PACKET], and it does exactly when the
    zero-packet capability is present; the first chunk never carries
    [USBDEVFS_URB_BULK_CONTINUATION], and every later one does exactly when
    the continuation capability is present.  With no capability no request
    carries either flag. *)
Theorem WriteBulk_flags (this : Z) (ep : Endpoint) (stream : list byte)
    (timeout : Z) (used extra : list SubmitEnv) (s : State) (size : Z) :
  0 < GetMaxPacketSize ep ->
  Urb_buffer_size (GetMaxPacketSize ep) = Some size ->
  wf_urbs (_urbs s) ->
  length used = S (Z.to_nat (Z.of_nat (length stream) / size)) ->
  Forall (fun e => exists last, completes timeout this e last) used ->
  let sent := submitted (since s (fst (WriteBulk this ep stream timeout
                                         (used ++ extra) s))) in
  let k := Z.to_nat (Z.of_nat (length stream) / size) in
  map (fun p => zero_packet (fst p)) sent
  = replicate k false
      ++ [has_capability (_capabilities s) USBDEVFS_CAP_ZERO_PACKET] /\
  map (fun p => bulk_continuation (fst p)) sent
  = false :: replicate k
               (has_capability (_capabilities s) USBDEVFS_CAP_BULK_CONTINUATION).
Proof.
  intros HP Hsize Hwf Hused Hall.
  destruct (Urb_new_bulk this (_fd s) ep size HP Hsize) as (Hpos & _).
  destruct (chunk_count stream size Hpos) as (Hk & _).
  rewrite Hk in *.
  destruct (WriteBulk_run this ep stream timeout used extra s size HP Hsize Hwf
              Hused Hall)
    as (s' & evs & Hrun & Htr & _ & _ & _ & _ & Hz & Hc).
  cbv zeta. rewrite Hrun. cbn [fst]. rewrite (since_app _ _ _ Htr).
  now split.
Qed.

Lemma WriteBulk_flags_witness :
  let s := mkState 3 (Z.lor USBDEVFS_CAP_ZERO_PACKET USBDEVFS_CAP_BULK_CONTINUATION)
             ∅ [] in
  let stream := replicate 5000 x01 in
  let sent := submitted (since s (fst (WriteBulk 100 (mkEndpoint 1 Bulk 512) stream
                                         1000 ([prompt 100 []; prompt 100 []] ++ [])
                                         s))) in
  let k := Z.to_nat (Z.of_nat (length stream) / 4096) in
  map (fun p => zero_packet (fst p)) sent
  = replicate k false
      ++ [has_capability (_capabilities s) USBDEVFS_CAP_ZERO_PACKET] /\
  map (fun p => bulk_continuation (fst p)) sent
  = false :: replicate k
               (has_capability (_capabilities s) USBDEVFS_CAP_BULK_CONTINUATION).
Proof.
  apply (WriteBulk_flags 100 (mkEndpoint 1 Bulk 512) (replicate 5000 x01) 1000
           [prompt 100 []; prompt 100 []] []
           (mkState 3 (Z.lor USBDEVFS_CAP_ZERO_PACKET USBDEVFS_CAP_BULK_CONTINUATION)
              ∅ []) 4096).
  - reflexivity.
  - reflexivity.
  - exact wf_urbs_empty.
  - vm_compute. reflexivity.
  - repeat constructor; eexists; apply prompt_completes.
Defined.

Lemma silent_fails (timeout own : Z) :
  fails_with timeout own silent (TimeoutException "timeout reaping usb urb").
Proof.
  split; [reflexivity|]. exists [], reap_nothing, []. split; [reflexivity|].
  split; [constructor|apply reap_nothing_throws].
Qed.

(** X19: [WriteBulk] stops at the first submission that fails: after [j] full
    chunks that completed, a submission whose reap loop throws makes
    [WriteBulk] throw the same exception; [j + 1] requests have been
    submitted, carrying the first bytes of the stream in order, the last one
    has been cancelled, and nothing of the stream beyond it is ever
    submitted. *)
Theorem WriteBulk_stops_at_failure (this : Z) (ep : Endpoint)
    (stream : list byte) (timeout : Z) (pre : list SubmitEnv) (e : SubmitEnv)
    (extra : list SubmitEnv) (s : State) (size : Z) (ex : exn) :
  0 < GetMaxPacketSize ep ->
  Urb_buffer_size (GetMaxPacketSize ep) = Some size ->
  wf_urbs (_urbs s) ->
  Z.of_nat (length pre) * size <= Z.of_nat (length stream) ->
  Forall (fun e => exists last, completes timeout this e last) pre ->
  fails_with timeout this e ex ->
  let r := WriteBulk this ep stream timeout (pre ++ e :: extra) s in
  let sent := submitted (since s (fst r)) in
  snd r = Threw ex /\
  length sent = S (length pre) /\
  concat (map snd sent) = take (S (length pre) * Z.to_nat size) stream /\
  discards (since s (fst r)) = [this].
Proof.
  intros HP Hsize Hwf Hlen Hall He.
  destruct (Urb_new_bulk this (_fd s) ep size HP Hsize) as (Hpos & Hnew).
  set (n := Z.to_nat size).
  assert (Hkn : (length pre * n <= length stream)%nat) by (subst n; nia).
  cbv zeta. unfold WriteBulk, bind, get_fd. rewrite Hnew.
  unfold Urb_GetTransferSize. cbn [Buffer]. rewrite length_replicate. fold n.
  assert (Hfresh := fresh_bulk_urb this (_fd s) ep size (_capabilities s)
                      ltac:(lia)).
  fold n in Hfresh.
  destruct (WriteBulk_loop_full_chunks timeout this n (length pre) _ stream false
              s pre (e :: extra) Hfresh Hwf Hkn eq_refl Hall)
    as (urb1 & s1 & evs1 & -> & Hurb1 & [Hwf1 Hcap1 Htr1 Hd1] & Hw1 & Hcat1
        & Hlens1 & _).
  rewrite WriteBulk_loop_step. cbn zeta. rewrite Nat2Z.id.
  destruct (WriteBulk_iteration_fails timeout this n urb1
              (drop (length pre * n) stream)
              (continued_after
                 (has_capability (_capabilities s) USBDEVFS_CAP_BULK_CONTINUATION)
                 false (length pre)) s1 e ex)
    as (s2 & k2 & evs2 & Hsub & Htr2 & Hs2 & Hd2 & Hw2).
  { now apply (bulk_urb_capabilities this n (_capabilities s)). }
  { assumption. }
  { assumption. }
  rewrite Hcap1 in *. rewrite Hsub. cbn [fst snd].
  rewrite (since_app s s2 (evs1 ++ evs2)) by (now rewrite Htr2, Htr1, app_assoc).
  apply (f_equal length) in Hlens1.
  rewrite length_map, length_replicate in Hlens1.
  unfold submitted, discards in *.
  rewrite !omap_app, Hs2, Hd1, Hd2, map_app, concat_app, length_app, Hlens1, Hcat1.
  cbn [map concat snd length app]. rewrite app_nil_r, take_take_drop.
  repeat split; try lia. f_equal. lia.
Qed.

Lemma WriteBulk_stops_at_failure_witness :
  let stream := replicate 5000 x01 in
  let r := WriteBulk 100 (mkEndpoint 1 Bulk 512) stream 1000
             ([prompt 100 []] ++ silent :: [prompt 100 []]) sample_state in
  let sent := submitted (since sample_state (fst r)) in
  snd r = Threw (TimeoutException "timeout reaping usb urb") /\
  length sent = S (length [prompt 100 []]) /\
  concat (map snd sent)
  = take (S (length [prompt 100 []]) * Z.to_nat 4096) stream /\
  discards (since sample_state (fst r)) = [100].
Proof.
  apply (WriteBulk_stops_at_failure 100 (mkEndpoint 1 Bulk 512)
           (replicate 5000 x01) 1000 [prompt 100 []] silent [prompt 100 []]
           sample_state 4096 (TimeoutException "timeout reaping usb urb")).
  - reflexivity.
  - reflexivity.
  - exact wf_urbs_empty.
  - vm_compute. discriminate.
  - repeat constructor; eexists; apply prompt_completes.
  - apply silent_fails.
Defined.

(** ** More on [ReadBulk] *)

Lemma completed_kernel_fields (e : ReapEnv) (urb : Urb) :
  buffer_length (KernelUrb (completed e urb)) = buffer_length (KernelUrb urb).
Proof. unfold completed. now destruct (env_urb e =? this urb). Qed.

(** The request [ReadBulk] hands to [Submit]. *)
Lemma ReadBulk_urb_facts (capabilities : Z) (continuation : bool) (urb : Urb) :
  let capable := has_capability capabilities USBDEVFS_CAP_BULK_CONTINUATION in
  let urb1 := if capable then Urb_SetContinuationFlag continuation urb else urb in
  this urb1 = this urb /\ Buffer urb1 = Buffer urb /\
  buffer_length (KernelUrb urb1) = buffer_length (KernelUrb urb) /\
  bulk_continuation (KernelUrb urb1)
  = (if capable then continuation else bulk_continuation (KernelUrb urb)).
Proof.
  cbn zeta. destruct (has_capability capabilities USBDEVFS_CAP_BULK_CONTINUATION);
    [|now repeat split].
  rewrite bulk_continuation_SetContinuationFlag.
  unfold Urb_SetContinuationFlag, Urb_SetFlag. now destruct continuation.
Qed.

(** One iteration of [ReadBulk] whose submission brings [chunk]. *)
Lemma ReadBulk_iteration (timeout own : Z) (n : nat) (urb : Urb)
    (continuation : bool) (s : State) (e : SubmitEnv) (chunk : list byte) :
  read_urb own n (_capabilities s) urb -> wf_urbs (_urbs s) ->
  receives timeout own e chunk -> (length chunk <= n)%nat ->
  let capable := has_capability (_capabilities s) USBDEVFS_CAP_BULK_CONTINUATION in
  exists urb' s' k evs,
    Submit (if capable then Urb_SetContinuationFlag continuation urb else urb)
      timeout e s = (s', Returned urb') /\
    take (Z.to_nat (actual_length (KernelUrb urb'))) (Buffer urb') = chunk /\
    read_urb own n (_capabilities s) urb' /\
    bulk_run s s' evs /\
    written evs = [] /\
    map fst (submitted evs) = [k] /\
    buffer_length k = Z.of_nat n /\
    bulk_continuation k = (capable && continuation).
Proof.
  intros [Hthis Hbuf Hlen Hcont] Hwf (last & Hc & Hdata & Hact) Hle. cbn zeta.
  destruct (ReadBulk_urb_facts (_capabilities s) continuation urb)
    as (H1this & H1buf & H1len & H1cont).
  cbn zeta in *.
  set (urb1 := if has_capability _ _ then _ else urb) in *.
  destruct (Submit_returns_post urb1 timeout e last s Hwf)
    as (s' & evs & Hrun & Hwf' & _ & Hcap & Htr & Hs & Hw & Hd);
    [now rewrite H1this, Hthis|].
  assert (Hlast : env_urb last = this urb1).
  { destruct Hc as (_ & pre & rest & _ & _ & Hret).
    apply Reap_returns_urb in Hret. congruence. }
  destruct (completed_facts last urb1) as (H4this & _ & H4buf & H4flags).
  exists (completed last urb1), s', (KernelUrb urb1), (submit_event urb1 :: evs).
  split; [exact Hrun|]. split.
  { apply received_chunk; try assumption. rewrite H1buf. lia. }
  split.
  { constructor.
    - congruence.
    - congruence.
    - rewrite completed_kernel_fields. congruence.
    - intros Hcap0. unfold bulk_continuation in *.
      rewrite H4flags, H1cont, Hcap0. now apply Hcont. }
  split; [constructor; try assumption; unfold discards in *; cbn; assumption|].
  unfold written, submitted in *. cbn. rewrite Hw, Hs. cbn.
  repeat split; [congruence|].
  rewrite H1cont.
  destruct (has_capability (_capabilities s) USBDEVFS_CAP_BULK_CONTINUATION) eqn:Hcb;
    [reflexivity|]. now apply Hcont.
Qed.

Lemma ReadBulk_loop_full_chunks (timeout own : Z) (n : nat) :
  forall (fulls : list (list byte)) (urb : Urb) (continuation : bool)
         (s : State) (used rest : list SubmitEnv),
    read_urb own n (_capabilities s) urb -> wf_urbs (_urbs s) ->
    Forall (fun c => length c = n) fulls ->
    Forall2 (receives timeout own) used fulls ->
    let capable := has_capability (_capabilities s) USBDEVFS_CAP_BULK_CONTINUATION in
    exists urb' s' evs,
      ReadBulk_loop urb (Z.of_nat n) continuation timeout (used ++ rest) s
      = ReadBulk_loop urb' (Z.of_nat n)
          (continued_after capable continuation (length fulls)) timeout rest s' /\
      read_urb own n (_capabilities s) urb' /\
      bulk_run s s' evs /\
      written evs = fulls /\
      map (fun p => buffer_length (fst p)) (submitted evs)
      = replicate (length fulls) (Z.of_nat n) /\
      map (fun p => bulk_continuation (fst p)) (submitted evs)
      = continuations capable continuation (length fulls).
Proof.
  induction fulls as [|c fulls IH];
    intros urb continuation s used rest Hurb Hwf Hfulls Hrecv.
  - apply Forall2_nil_inv_r in Hrecv as ->. cbn zeta.
    exists urb, s, []. cbn.
    split; [reflexivity|]. split; [assumption|].
    split; [|now repeat split].
    constructor; try reflexivity; try assumption. now rewrite app_nil_r.
  - apply Forall2_cons_inv_r in Hrecv as (e & used' & Hc & Hrest & ->).
    apply Forall_cons in Hfulls as [Hc_len Hfulls].
    cbn zeta. cbn [app]. rewrite ReadBulk_loop_step. cbn zeta.
    destruct (ReadBulk_iteration timeout own n urb continuation s e c Hurb Hwf Hc
                ltac:(lia))
      as (urb1 & s1 & k1 & evs1 & -> & Hchunk & Hurb1 & [Hwf1 Hcap1 Htr1 Hd1]
          & Hw1 & Hs1 & Hlen1 & Hc1).
    rewrite Hchunk, Hc_len, Z.eqb_refl.
    destruct (IH urb1
                (if has_capability (_capabilities s) USBDEVFS_CAP_BULK_CONTINUATION
                 then true else continuation)
                (add_events [EvWrite c] s1) used' rest)
      as (urb' & s' & evs & -> & Hurb' & [Hwf' Hcap' Htr' Hd'] & Hw & Hlens & Hc').
    { cbn [_capabilities add_events]. now rewrite Hcap1. }
    { assumption. }
    { assumption. }
    { assumption. }
    cbn [_capabilities add_events trace] in *. rewrite Hcap1 in *.
    exists urb', s', (evs1 ++ EvWrite c :: evs).
    fold (continued (has_capability (_capabilities s) USBDEVFS_CAP_BULK_CONTINUATION)
            continuation) in *.
    rewrite continued_after_continued, continuations_continued in *.
    unfold written, submitted in *.
    rewrite !omap_app, Hw1.
    change (omap write_of (EvWrite c :: evs)) with (c :: omap write_of evs).
    change (omap submit_of (EvWrite c :: evs)) with (omap submit_of evs).
    cbn [app]. rewrite Hw, !map_app, Hlens, Hc'.
    assert (Hs1' : map (fun p : usbdevfs_urb * ByteArray => buffer_length (fst p))
                     (omap submit_of evs1) = [Z.of_nat n]
                   /\ map (fun p : usbdevfs_urb * ByteArray => bulk_continuation (fst p))
                        (omap submit_of evs1)
                      = [has_capability (_capabilities s) USBDEVFS_CAP_BULK_CONTINUATION
                         && continuation]).
    { destruct (omap submit_of evs1) as [|[k p] [|? ?]]; try discriminate.
      cbn in Hs1. injection Hs1 as ->. cbn. now rewrite Hlen1, Hc1. }
    destruct Hs1' as [-> ->].
    cbn [length continuations continued_after replicate app].
    split; [reflexivity|]. split; [exact Hurb'|].
    split; [|now repeat split].
    constructor; try assumption.
    + rewrite Htr', Htr1. now rewrite <- !app_assoc.
    + unfold discards in *. rewrite omap_app, Hd1. cbn. exact Hd'.
Qed.

Lemma fresh_read_urb (this fd : Z) (ep : Endpoint) (size capabilities : Z) :
  0 <= size ->
  read_urb this (Z.to_nat size) capabilities
    (mkUrb this fd (GetMaxPacketSize ep) (replicate (Z.to_nat size) Byte.x00)
       (mk_usbdevfs_urb USBDEVFS_URB_TYPE_BULK (GetAddress ep) 0 size 0)).
Proof.
  intros Hsize. constructor; cbn; try reflexivity.
  - apply length_replicate.
  - lia.
Qed.

(** The start of [ReadBulk] and its run over full chunks. *)
Lemma ReadBulk_full_chunks (this : Z) (ep : Endpoint) (timeout : Z)
    (used rest : list SubmitEnv) (s : State) (size : Z)
    (fulls : list (list byte)) :
  0 < GetMaxPacketSize ep ->
  Urb_buffer_size (GetMaxPacketSize ep) = Some size ->
  wf_urbs (_urbs s) ->
  Forall (fun c => Z.of_nat (length c) = size) fulls ->
  Forall2 (receives timeout this) used fulls ->
  let n := Z.to_nat size in
  let capable := has_capability (_capabilities s) USBDEVFS_CAP_BULK_CONTINUATION in
  exists urb' s' evs,
    ReadBulk this ep timeout (used ++ rest) s
    = ReadBulk_loop urb' (Z.of_nat n)
        (continued_after capable false (length fulls)) timeout rest s' /\
    read_urb this n (_capabilities s) urb' /\
    bulk_run s s' evs /\
    written evs = fulls /\
    map (fun p => buffer_length (fst p)) (submitted evs)
    = replicate (length fulls) size /\
    map (fun p => bulk_continuation (fst p)) (submitted evs)
    = continuations capable false (length fulls).
Proof.
  intros HP Hsize Hwf Hfulls Hrecv n capable.
  destruct (Urb_new_bulk this (_fd s) ep size HP Hsize) as (Hpos & Hnew).
  assert (Hzn : Z.of_nat n = size) by (subst n; lia).
  unfold ReadBulk, bind, get_fd. rewrite Hnew.
  unfold Urb_GetTransferSize. cbn [Buffer]. rewrite length_replicate. fold n.
  assert (Hfresh := fresh_read_urb this (_fd s) ep size (_capabilities s)
                      ltac:(lia)).
  fold n in Hfresh.
  destruct (ReadBulk_loop_full_chunks timeout this n fulls _ false s used rest
              Hfresh Hwf)
    as (urb' & s' & evs & -> & Hurb' & Hrun & Hw & Hlens & Hc);
    [eapply Forall_impl; [exact Hfulls|]; cbn; intros c Hc; lia|assumption|].
  rewrite Hzn in Hlens. exists urb', s', evs.
  split; [reflexivity|]. split; [assumption|]. split; [assumption|].
  now repeat split.
Qed.

(** X20: Every request of [ReadBulk] asks for a whole buffer; the first never
    carries [USBDEVFS_URB_BULK_CONTINUATION] and every later one does exactly
    when the continuation capability is present; a transfer that ends with a
    short chunk cancels nothing. *)
Theorem ReadBulk_requests (this : Z) (ep : Endpoint) (timeout : Z)
    (used extra : list SubmitEnv) (s : State) (size : Z)
    (fulls : list (list byte)) (short : list byte) :
  0 < GetMaxPacketSize ep ->
  Urb_buffer_size (GetMaxPacketSize ep) = Some size ->
  wf_urbs (_urbs s) ->
  Forall (fun c => Z.of_nat (length c) = size) fulls ->
  Z.of_nat (length short) < size ->
  Forall2 (receives timeout this) used (fulls ++ [short]) ->
  let r := ReadBulk this ep timeout (used ++ extra) s in
  let sent := submitted (since s (fst r)) in
  map (fun p => buffer_length (fst p)) sent = replicate (S (length fulls)) size /\
  map (fun p => bulk_continuation (fst p)) sent
  = false :: replicate (length fulls)
               (has_capability (_capabilities s) USBDEVFS_CAP_BULK_CONTINUATION) /\
  discards (since s (fst r)) = [].
Proof.
  intros HP Hsize Hwf Hfulls Hshort Hrecv.
  destruct (Urb_new_bulk this (_fd s) ep size HP Hsize) as (Hpos & _).
  apply Forall2_app_inv_r in Hrecv as (u1 & u2 & H1 & H2 & ->).
  apply Forall2_cons_inv_r in H2 as (e & u3 & He & H3 & ->).
  apply Forall2_nil_inv_r in H3 as ->.
  rewrite <- app_assoc. cbn [app].
  destruct (ReadBulk_full_chunks this ep timeout u1 (e :: extra) s size fulls
              HP Hsize Hwf Hfulls H1)
    as (urb1 & s1 & evs1 & Hrun & Hurb1 & [Hwf1 Hcap1 Htr1 Hd1] & Hw1 & Hlens1 & Hc1).
  cbv zeta in *. rewrite Hrun, ReadBulk_loop_step. cbn zeta.
  set (n := Z.to_nat size) in *.
  assert (Hzn : Z.of_nat n = size) by (subst n; lia).
  destruct (ReadBulk_iteration timeout this n urb1
              (continued_after
                 (has_capability (_capabilities s) USBDEVFS_CAP_BULK_CONTINUATION)
                 false (length fulls)) s1 e short)
    as (urb2 & s2 & k2 & evs2 & Hsub & Hchunk & _ & [Hwf2 Hcap2 Htr2 Hd2]
        & Hw2 & Hs2 & Hlen2 & Hc2).
  { now rewrite Hcap1. }
  { assumption. }
  { assumption. }
  { lia. }
  rewrite Hcap1 in *. rewrite Hsub, Hchunk.
  destruct (Z.eqb_spec (Z.of_nat (length short)) (Z.of_nat n)) as [Heq|_]; [lia|].
  cbn [fst].
  rewrite (since_app s _ (evs1 ++ evs2 ++ [EvWrite short]))
    by (cbn; rewrite Htr2, Htr1; now rewrite <- !app_assoc).
  unfold submitted, discards in *. rewrite !omap_app, !map_app, Hlens1, Hc1, Hd1, Hd2.
  cbn [omap list_omap submit_of discard_of app map].
  rewrite !app_nil_r.
  assert (Hs2' : map (fun p : usbdevfs_urb * ByteArray => buffer_length (fst p))
                   (omap submit_of evs2) = [size]
                 /\ map (fun p : usbdevfs_urb * ByteArray => bulk_continuation (fst p))
                      (omap submit_of evs2)
                    = [has_capability (_capabilities s) USBDEVFS_CAP_BULK_CONTINUATION
                       && continued_after
                            (has_capability (_capabilities s)
                               USBDEVFS_CAP_BULK_CONTINUATION) false (length fulls)]).
  { destruct (omap submit_of evs2) as [|[k p] [|? ?]]; try discriminate.
    cbn in Hs2. injection Hs2 as ->. cbn. now rewrite Hlen2, Hc2, Hzn. }
  destruct Hs2' as [-> ->].
  repeat split.
  - now rewrite <- replicate_cons_app.
  - destruct (length fulls) as [|k']; cbn [continuations continued_after app].
    + now rewrite andb_false_r.
    + rewrite andb_false_r. cbn [app]. f_equal.
      destruct (has_capability (_capabilities s) USBDEVFS_CAP_BULK_CONTINUATION);
        cbn [continued andb]; now rewrite <- replicate_cons_app.
Qed.

Lemma ReadBulk_requests_witness :
  let s := mkState 3 USBDEVFS_CAP_BULK_CONTINUATION ∅ [] in
  let full := replicate 4096 x07 in
  let r := ReadBulk 100 (mkEndpoint 129 Bulk 512) 1000
             ([prompt 100 full; prompt 100 [x01; x02]] ++ []) s in
  let sent := submitted (since s (fst r)) in
  map (fun p => buffer_length (fst p)) sent = replicate (S (length [full])) 4096 /\
  map (fun p => bulk_continuation (fst p)) sent
  = false :: replicate (length [full])
               (has_capability (_capabilities s) USBDEVFS_CAP_BULK_CONTINUATION) /\
  discards (since s (fst r)) = [].
Proof.
  apply (ReadBulk_requests 100 (mkEndpoint 129 Bulk 512) 1000
           [prompt 100 (replicate 4096 x07); prompt 100 [x01; x02]] []
           (mkState 3 USBDEVFS_CAP_BULK_CONTINUATION ∅ []) 4096
           [replicate 4096 x07] [x01; x02]).
  - reflexivity.
  - reflexivity.
  - exact wf_urbs_empty.
  - repeat constructor.
  - reflexivity.
  - repeat constructor; apply prompt_receives.
Defined.

(** X21: [ReadBulk] never ends on a full chunk: while every chunk received fills
    the buffer it keeps asking, so after full chunks only the call is still
    in its loop, having written them all. *)
Theorem ReadBulk_waits_for_short_chunk (this : Z) (ep : Endpoint) (timeout : Z)
    (envs : list SubmitEnv) (s : State) (size : Z) (fulls : list (list byte)) :
  0 < GetMaxPacketSize ep ->
  Urb_buffer_size (GetMaxPacketSize ep) = Some size ->
  wf_urbs (_urbs s) ->
  Forall (fun c => Z.of_nat (length c) = size) fulls ->
  Forall2 (receives timeout this) envs fulls ->
  let r := ReadBulk this ep timeout envs s in
  snd r = Waiting /\ written (since s (fst r)) = fulls.
Proof.
  intros HP Hsize Hwf Hfulls Hrecv.
  destruct (ReadBulk_full_chunks this ep timeout envs [] s size fulls
              HP Hsize Hwf Hfulls Hrecv)
    as (urb1 & s1 & evs1 & Hrun & _ & [_ _ Htr1 _] & Hw1 & _).
  cbv zeta in *. rewrite app_nil_r in Hrun. rewrite Hrun. cbn [ReadBulk_loop fst snd].
  now rewrite (since_app _ _ _ Htr1).
Qed.

Lemma ReadBulk_waits_for_short_chunk_witness :
  let full := replicate 4096 x07 in
  let r := ReadBulk 100 (mkEndpoint 129 Bulk 512) 1000
             [prompt 100 full; prompt 100 full] sample_state in
  snd r = Waiting /\ written (since sample_state (fst r)) = [full; full].
Proof.
  apply (ReadBulk_waits_for_short_chunk 100 (mkEndpoint 129 Bulk 512) 1000
           [prompt 100 (replicate 4096 x07); prompt 100 (replicate 4096 x07)]
           sample_state 4096 [replicate 4096 x07; replicate 4096 x07]).
  - reflexivity.
  - reflexivity.
  - exact wf_urbs_empty.
  - repeat constructor.
  - repeat constructor; apply prompt_receives.
Defined.

(** X22: [ReadBulk] keeps what it has written when it fails: after full chunks
    that were received and written, a submission whose reap loop throws makes
    [ReadBulk] throw the same exception; the output stream holds exactly the
    chunks received before, and the failed request has been cancelled
    once. *)
Theorem ReadBulk_failure_keeps_output (own : Z) (ep : Endpoint) (timeout : Z)
    (pre : list SubmitEnv) (e : SubmitEnv) (extra : list SubmitEnv) (s : State)
    (size : Z) (fulls : list (list byte)) (ex : exn) :
  0 < GetMaxPacketSize ep ->
  Urb_buffer_size (GetMaxPacketSize ep) = Some size ->
  wf_urbs (_urbs s) ->
  Forall (fun c => Z.of_nat (length c) = size) fulls ->
  Forall2 (receives timeout own) pre fulls ->
  fails_with timeout own e ex ->
  let r := ReadBulk own ep timeout (pre ++ e :: extra) s in
  snd r = Threw ex /\
  written (since s (fst r)) = fulls /\
  length (submitted (since s (fst r))) = S (length fulls) /\
  discards (since s (fst r)) = [own].
Proof.
  intros HP Hsize Hwf Hfulls Hrecv (Hrv & p & t & rest & Hreaps & Hp & Ht).
  destruct (ReadBulk_full_chunks own ep timeout pre (e :: extra) s size fulls
              HP Hsize Hwf Hfulls Hrecv)
    as (urb1 & s1 & evs1 & Hrun & [Hthis1 _ _ _] & [Hwf1 Hcap1 Htr1 Hd1] & Hw1
        & Hlens1 & _).
  cbv zeta in *. rewrite Hrun, ReadBulk_loop_step. cbn zeta.
  destruct (ReadBulk_urb_facts (_capabilities s1)
              (continued_after
                 (has_capability (_capabilities s) USBDEVFS_CAP_BULK_CONTINUATION)
                 false (length fulls)) urb1) as (H2this & _).
  cbn zeta in H2this.
  set (urb2 := if has_capability (_capabilities s1) _ then _ else urb1) in *.
  assert (Hown : this urb2 = own) by congruence.
  rewrite <- Hown in Hp.
  assert (Hout := Submit_throws urb2 timeout e p t rest ex s1 Hwf1 Hrv Hreaps Hp Ht).
  destruct (Submit_post urb2 timeout e s1 Hwf1) as (_ & _ & _ & evs & Htr & Hs & Hw & Hend).
  cbn zeta in Htr, Hend. unfold Submit_ends in Hend. rewrite Hout, Hrv in Hend.
  destruct Hend as (_ & Hd & _).
  destruct (Submit urb2 timeout e s1) as [s2 o]. cbn [fst snd] in *. subst o.
  cbn [fst snd].
  rewrite (since_app s s2 (evs1 ++ submit_event urb2 :: evs))
    by (rewrite Htr, Htr1; now rewrite <- app_assoc).
  apply (f_equal length) in Hlens1.
  rewrite length_map, length_replicate in Hlens1.
  unfold written, submitted, discards in *.
  rewrite !omap_app, length_app. cbn. rewrite Hw, Hs, Hd, Hd1, Hw1, Hlens1, Hown.
  cbn. rewrite app_nil_r. repeat split. lia.
Qed.

Lemma ReadBulk_failure_keeps_output_witness :
  let full := replicate 4096 x07 in
  let r := ReadBulk 100 (mkEndpoint 129 Bulk 512) 1000
             ([prompt 100 full] ++ silent :: []) sample_state in
  snd r = Threw (TimeoutException "timeout reaping usb urb") /\
  written (since sample_state (fst r)) = [full] /\
  length (submitted (since sample_state (fst r))) = S (length [full]) /\
  discards (since sample_state (fst r)) = [100].
Proof.
  apply (ReadBulk_failure_keeps_output 100 (mkEndpoint 129 Bulk 512) 1000
           [prompt 100 (replicate 4096 x07)] silent [] sample_state 4096
           [replicate 4096 x07] (TimeoutException "timeout reaping usb urb")).
  - reflexivity.
  - reflexivity.
  - exact wf_urbs_empty.
  - repeat constructor.
  - repeat constructor; apply prompt_receives.
  - apply silent_fails.
Defined.

(** ** Interface claims and control writes *)

(** X23: The life of an [InterfaceToken]: a refused claim throws by [errno]
    ([DeviceBusyException] for [EBUSY], [DeviceNotFoundException] for
    [ENODEV], [posix::Exception] otherwise) and leaves no token; an accepted
    claim gives a token whose destruction releases the interface that was
    claimed, on the same descriptor, whatever the release answers. *)
Theorem InterfaceToken_lifecycle (fd interfaceNumber : Z) (r r' : sysret)
    (s : State) :
  let claim := InterfaceToken_new fd interfaceNumber r s in
  match IOCTL_exception "ioctl(_fd, USBDEVFS_CLAIMINTERFACE, &interfaceNumber)" r with
  | Some ex =>
      rv r < 0 /\ snd claim = Threw ex /\
      since s (fst claim) = [EvIoctl fd (USBDEVFS_CLAIMINTERFACE interfaceNumber)]
  | None =>
      0 <= rv r /\
      exists tok,
        snd claim = Returned tok /\
        snd (InterfaceToken_delete tok r' (fst claim)) = Returned tt /\
        since s (fst (InterfaceToken_delete tok r' (fst claim)))
        = [EvIoctl fd (USBDEVFS_CLAIMINTERFACE interfaceNumber);
           EvIoctl fd (USBDEVFS_RELEASEINTERFACE interfaceNumber)]
  end.
Proof.
  cbn zeta. unfold IOCTL_exception, InterfaceToken_new, IOCTL, bind, emit, throw, ret.
  destruct (Z.ltb_spec (rv r) 0) as [Hneg|Hpos].
  - destruct (errno r =? EBUSY); [|destruct (errno r =? ENODEV)];
      cbn [fst snd]; (repeat split; [assumption|apply since_app; reflexivity]).
  - split; [assumption|]. eexists. split; [reflexivity|].
    split; [reflexivity|]. apply since_app. cbn. now rewrite <- app_assoc.
Qed.

(** X24: [WriteControl] issues one control transfer, whose length field is the
    size of the data cut to 16 bits, and leaves the pending table alone.  It
    returns when the [ioctl] does not fail; [EAGAIN] is a [TimeoutException]
    and every other error, [EBUSY] and [ENODEV] included, is the generic
    [posix::Exception("ioctl")]. *)
Theorem WriteControl_result (type req value index : Z) (data : ByteArray)
    (timeout : Z) (e : ControlEnv) (s : State) :
  let r := WriteControl type req value index data timeout e s in
  snd r =
    (if decide (0 <= rv (env_control e)) then Returned tt
     else if decide (errno (env_control e) = EAGAIN)
          then Threw (TimeoutException "timeout sending control transfer")
          else Threw (posix_Exception "ioctl" (errno (env_control e)))) /\
  _urbs (fst r) = _urbs s /\
  since s (fst r)
  = [EvDebug (write_control type req value index);
     EvIoctl (_fd s)
       (USBDEVFS_CONTROL
          (mk_usbdevfs_ctrltransfer type req value index
             (Z.of_nat (length data) mod 2 ^ 16) (timeout mod 2 ^ 32)))].
Proof.
  cbn zeta. unfold WriteControl, debug, bind, emit, get_fd, throw, ret, mk_ctrl.
  cbn beta iota zeta.
  destruct (Z.geb_spec (rv (env_control e)) 0) as [Hge|Hlt];
    destruct (decide (0 <= rv (env_control e))) as [H0|H0]; try lia.
  - cbn [fst snd]. repeat split. apply since_app. cbn. now rewrite <- app_assoc.
  - destruct (Z.eqb_spec (errno (env_control e)) EAGAIN) as [He|He];
      destruct (decide (errno (env_control e) = EAGAIN)); try contradiction;
      cbn [fst snd]; (repeat split; apply since_app; cbn; now rewrite <- app_assoc).
Qed.

(** X25: [ReadControl] issues one control transfer, asking for the size of the
    buffer cut to 16 bits, and registers nothing: the pending table, the
    descriptor and the capabilities are as before, whatever the outcome. *)
Theorem ReadControl_effects (type req value index : Z) (data : ByteArray)
    (timeout : Z) (e : ControlEnv) (s : State) :
  let s' := fst (fst (ReadControl type req value index data timeout e s)) in
  _urbs s' = _urbs s /\ _fd s' = _fd s /\ _capabilities s' = _capabilities s /\
  since s s'
  = [EvDebug (read_control type req value index);
     EvIoctl (_fd s)
       (USBDEVFS_CONTROL
          (mk_usbdevfs_ctrltransfer type req value index
             (Z.of_nat (length data) mod 2 ^ 16) (timeout mod 2 ^ 32)))].
Proof.
  cbn zeta. unfold ReadControl, mk_ctrl. cbn zeta.
  destruct (rv (env_control e) >=? 0);
    [|destruct (errno (env_control e) =? EAGAIN)];
    cbn [fst snd]; (repeat split; apply since_app; cbn; now rewrite <- app_assoc).
Qed.
